(** * VideoPreview: the layer compositor of the timeline editor

    A shallow embedding of [src/react-app/components/VideoPreview.tsx]:
    the transform resolver [getTransformStyles], the layer ordering
    [sortedLayers], the base layer selection [baseVideoLayer], the clock
    effects on the base video element, the drag gesture handlers and the
    per-layer render.

    JavaScript numbers are IEEE 754 binary64 values, so they are embedded as
    Rocq's primitive floats; a decimal literal such as 0.1 denotes the
    nearest binary64 value in both languages. *)

From Stdlib Require Import Floats.PrimFloat ZArith NArith Bool List Lia.
From Stdlib Require Import Floats.SpecFloat Floats.FloatOps Floats.FloatAxioms.
From Stdlib Require Import Strings.Ascii Strings.String.
From Stdlib Require Import Sorting.Sorted Sorting.Permutation.
Import ListNotations.

#[local] Set Warnings "-inexact-float".
#[local] Open Scope string_scope.

(** ** Host semantics used by the component *)

Module JS.

Definition number := float.

(** ToBoolean on a number: [+0], [-0] and [NaN] are falsy. *)
Definition truthy (n : number) : bool :=
  negb (PrimFloat.eqb n 0%float) && PrimFloat.eqb n n.

(** ToBoolean on an optional number: [undefined] is falsy. *)
Definition truthy_opt (v : option number) : bool :=
  match v with
  | Some n => truthy n
  | None => false
  end.

(** ToBoolean on a string: only the empty string is falsy. *)
Definition truthy_string (s : string) : bool := negb (s =? "").

(** [a || b] on numbers. *)
Definition or (a b : number) : number := if truthy a then a else b.

(** [v || d] where [v] may be [undefined]. *)
Definition or_default (v : option number) (d : number) : number :=
  match v with
  | Some n => or n d
  | None => d
  end.

(** [v ?? d]: only [undefined] is replaced. *)
Definition nullish (v : option number) (d : number) : number :=
  match v with
  | Some n => n
  | None => d
  end.

(** [a !== b] on numbers. *)
Definition strict_neq (a b : number) : bool := negb (PrimFloat.eqb a b).

(** [Object.is] on numbers, the comparison of effect dependencies. *)
Definition same_value (a b : number) : bool := PrimFloat.Leibniz.eqb a b.

(** [Array.prototype.join]. *)
Definition join (sep : string) (l : list string) : string :=
  String.concat sep l.

(** [Array.prototype.push], as a value. *)
Definition push {A : Type} (l : list A) (a : A) : list A :=
  (l ++ [a])%list.

(** [Array.prototype.sort] is stable: an element moves in front of
    another one only when the comparator puts it strictly first.  The
    insertion below keeps an element ahead of everything that followed it
    in the input unless the comparator returns a positive number. *)
Fixpoint insert {A : Type} (comparefn : A -> A -> Z) (a : A) (l : list A)
  : list A :=
  match l with
  | [] => [a]
  | b :: l' =>
      if (comparefn a b <=? 0)%Z then a :: b :: l'
      else b :: insert comparefn a l'
  end.

Fixpoint sort {A : Type} (comparefn : A -> A -> Z) (l : list A) : list A :=
  match l with
  | [] => []
  | a :: l' => insert comparefn a (sort comparefn l')
  end.

(** [Array.prototype.map] with the element index, a JavaScript number
    counted up from [i]. *)
Fixpoint map_from {A B : Type} (i : number) (f : A -> number -> B)
    (l : list A) : list B :=
  match l with
  | [] => []
  | a :: l' => f a i :: map_from (PrimFloat.add i 1%float) f l'
  end.

Definition mapi {A B : Type} (f : A -> number -> B) (l : list A) : list B :=
  map_from 0%float f l.

End JS.

(** ** Data model *)

Module ClipTransform.
Record t := mk {
  x : option JS.number;
  y : option JS.number;
  scale : option JS.number;
  rotation : option JS.number;
  opacity : option JS.number;
  cropTop : option JS.number;
  cropBottom : option JS.number;
  cropLeft : option JS.number;
  cropRight : option JS.number
}.

(** The object literal [{}]. *)
Definition empty : t := mk None None None None None None None None None.
End ClipTransform.

Inductive MediaType := video | image | audio.

Definition MediaType_eqb (a b : MediaType) : bool :=
  match a, b with
  | video, video | image, image | audio, audio => true
  | _, _ => false
  end.

Module ClipLayer.
Record t := mk {
  id : string;
  url : string;
  type : MediaType;
  trackId : string;
  clipTime : JS.number;
  transform : option ClipTransform.t
}.
End ClipLayer.

Module CSSProperties.
Record t := mk {
  zIndex : JS.number;
  transform : option string;
  opacity : JS.number;
  clipPath : option string;
  cursor : option string
}.
End CSSProperties.

(** ** Transform resolver *)

Section TransformResolver.

(** Number-to-string conversion of template literals, a host function. *)
Variable numberToString : JS.number -> string.

Definition translateCss (x y : JS.number) : string :=
  "translate(" ++ numberToString x ++ "px, " ++ numberToString y ++ "px)".

Definition scaleCss (s : JS.number) : string :=
  "scale(" ++ numberToString s ++ ")".

Definition rotateCss (r : JS.number) : string :=
  "rotate(" ++ numberToString r ++ "deg)".

Definition insetCss (top right bottom left : JS.number) : string :=
  "inset(" ++ numberToString top ++ "% " ++ numberToString right ++ "% "
    ++ numberToString bottom ++ "% " ++ numberToString left ++ "%)".

(** The [transforms] array of [getTransformStyles] after the three
    conditional pushes. *)
Definition transforms (t : ClipTransform.t) : list string :=
  let transforms : list string := [] in
  let transforms :=
    if JS.truthy_opt (ClipTransform.x t) || JS.truthy_opt (ClipTransform.y t)
    then JS.push transforms
           (translateCss (JS.or_default (ClipTransform.x t) 0%float)
                         (JS.or_default (ClipTransform.y t) 0%float))
    else transforms in
  let transforms :=
    match ClipTransform.scale t with
    | Some s =>
        if JS.truthy s && JS.strict_neq s 1%float
        then JS.push transforms (scaleCss s)
        else transforms
    | None => transforms
    end in
  let transforms :=
    match ClipTransform.rotation t with
    | Some r =>
        if JS.truthy r then JS.push transforms (rotateCss r) else transforms
    | None => transforms
    end in
  transforms.

(** The value of [hasClip]: the first truthy crop value, or the last. *)
Definition hasClip (t : ClipTransform.t) : JS.number :=
  let cropTop := JS.or_default (ClipTransform.cropTop t) 0%float in
  let cropBottom := JS.or_default (ClipTransform.cropBottom t) 0%float in
  let cropLeft := JS.or_default (ClipTransform.cropLeft t) 0%float in
  let cropRight := JS.or_default (ClipTransform.cropRight t) 0%float in
  JS.or (JS.or (JS.or cropTop cropBottom) cropLeft) cropRight.

Definition clipPathOf (t : ClipTransform.t) : option string :=
  let cropTop := JS.or_default (ClipTransform.cropTop t) 0%float in
  let cropBottom := JS.or_default (ClipTransform.cropBottom t) 0%float in
  let cropLeft := JS.or_default (ClipTransform.cropLeft t) 0%float in
  let cropRight := JS.or_default (ClipTransform.cropRight t) 0%float in
  if JS.truthy (hasClip t)
  then Some (insetCss cropTop cropRight cropBottom cropLeft)
  else None.

(** [getTransformStyles(transform?, zIndex = 0, isDragging?)]; an omitted
    argument is [None]. *)
Definition getTransformStyles (transform : option ClipTransform.t)
    (zIndex : option JS.number) (isDragging : option bool)
  : CSSProperties.t :=
  let t := match transform with
           | Some t => t
           | None => ClipTransform.empty
           end in
  let zIndex := JS.nullish zIndex 0%float in
  let transforms := transforms t in
  {| CSSProperties.zIndex := zIndex;
     CSSProperties.transform :=
       if (0 <? List.length transforms)%nat
       then Some (JS.join " " transforms)
       else None;
     CSSProperties.opacity := JS.nullish (ClipTransform.opacity t) 1%float;
     CSSProperties.clipPath := clipPathOf t;
     CSSProperties.cursor :=
       match isDragging with
       | Some true => Some "grabbing"
       | _ => None
       end |}.

End TransformResolver.


(** The transform of the crop example of the specification:
    [{scale: 2, cropLeft: 50}]. *)
Definition cropExample : ClipTransform.t :=
  ClipTransform.mk None None (Some 2%float) None None None None
    (Some 50%float) None.

(** ** Layer ordering *)

Section LayerOrdering.

(** [String.prototype.localeCompare], the collation of the host's current
    locale: negative when the receiver sorts first, positive when the
    argument does, zero when they collate equal. *)
Variable localeCompare : string -> string -> Z.

(** The comparator [(a, b) => a.trackId.localeCompare(b.trackId)]. *)
Definition compareLayers (a b : ClipLayer.t) : Z :=
  localeCompare (ClipLayer.trackId a) (ClipLayer.trackId b).

(** [[...layers].sort(...)]: the copy is sorted, the input is untouched. *)
Definition sortedLayers (layers : list ClipLayer.t) : list ClipLayer.t :=
  JS.sort compareLayers layers.

End LayerOrdering.

(** [a] is not placed after [b] by the comparator. *)
Definition notAfter {A : Type} (comparefn : A -> A -> Z) (a b : A) : Prop :=
  (comparefn a b <= 0)%Z.

(** [a] and [b] are tied under the comparator. *)
Definition tied {A : Type} (comparefn : A -> A -> Z) (a b : A) : bool :=
  (comparefn a b =? 0)%Z.

(** A comparator is consistent when it orders its arguments as a total
    preorder; [Array.prototype.sort] promises a sorted result only then. *)
Record ConsistentComparator (cmp : string -> string -> Z) : Prop := {
  cmp_refl : forall a, cmp a a = 0%Z;
  cmp_flip : forall a b, (0 < cmp a b)%Z <-> (cmp b a < 0)%Z;
  cmp_trans : forall a b c, (cmp a b <= 0)%Z -> (cmp b c <= 0)%Z ->
                            (cmp a c <= 0)%Z
}.

(** Ordinal comparison of strings, code unit by code unit: the
    locale-insensitive order the specification names. *)
Definition ordinalCompare (a b : string) : Z :=
  match String.compare a b with
  | Lt => (-1)%Z
  | Eq => 0%Z
  | Gt => 1%Z
  end.

(** A model of the host collation on ASCII text, after the root collation of
    Unicode: strings are compared first by their primary weights, where a
    letter weighs the same in both cases, digits come before letters and
    every other ASCII character before the digits; primary ties are broken
    by case, lower case first.  The model follows the root collation on
    letters and digits, the alphabet of track identifiers; the other
    characters are kept in code order among themselves. *)
Module Collation.

Definition between (lo hi : N) (c : ascii) : bool :=
  ((lo <=? N_of_ascii c) && (N_of_ascii c <=? hi))%N.

Definition isDigit : ascii -> bool := between 48 57.
Definition isUpper : ascii -> bool := between 65 90.
Definition isLower : ascii -> bool := between 97 122.

Definition primary (c : ascii) : N :=
  let n := N_of_ascii c in
  if isDigit c then (256 + n)%N
  else if isLower c then (512 + n)%N
  else if isUpper c then (512 + n + 32)%N
  else if (n <? 128)%N then n
  else (1024 + n)%N.

Definition tertiary (c : ascii) : N := if isUpper c then 1%N else 0%N.

Fixpoint lexCompare (u v : list N) : comparison :=
  match u, v with
  | [], [] => Eq
  | [], _ :: _ => Lt
  | _ :: _, [] => Gt
  | a :: u', b :: v' =>
      match (a ?= b)%N with
      | Eq => lexCompare u' v'
      | c => c
      end
  end.

Definition weights (w : ascii -> N) (s : string) : list N :=
  List.map w (list_ascii_of_string s).

Definition compare (a b : string) : comparison :=
  match lexCompare (weights primary a) (weights primary b) with
  | Eq => lexCompare (weights tertiary a) (weights tertiary b)
  | c => c
  end.

Definition localeCompare (a b : string) : Z :=
  match compare a b with
  | Lt => (-1)%Z
  | Eq => 0%Z
  | Gt => 1%Z
  end.

End Collation.

(** Strings over upper-case letters and digits, the alphabet of the track
    identifiers in use ("V1", "V2", "A1", "T1"). *)
Definition trackChar (c : ascii) : bool :=
  Collation.isDigit c || Collation.isUpper c.

Fixpoint trackName (s : string) : bool :=
  match s with
  | EmptyString => true
  | String c s' => trackChar c && trackName s'
  end.

(** ** Base layer *)

Definition isBaseVideo (l : ClipLayer.t) : bool :=
  (ClipLayer.trackId l =? "V1") && MediaType_eqb (ClipLayer.type l) video.

(** [layers.find(l => l.trackId === 'V1' && l.type === 'video')]. *)
Definition baseVideoLayer (layers : list ClipLayer.t) : option ClipLayer.t :=
  List.find isBaseVideo layers.

(** ** Clock effects on the base video element *)

Module HTMLVideoElement.
Record t := mk {
  currentTime : JS.number;
  paused : bool
}.
End HTMLVideoElement.

(** What an effect asks of the element behind [videoRef]: an assignment to
    [currentTime], [play()] or [pause()].  What the host makes of the
    request is not part of the component. *)
Inductive MediaOp :=
| setCurrentTime (time : JS.number)
| play
| pause.

(** Body of the seek effect; [video] is [videoRef.current]. *)
Definition seekEffect (video : option HTMLVideoElement.t)
    (baseVideoLayer : option ClipLayer.t) (isPlaying : bool) : list MediaOp :=
  match video, baseVideoLayer with
  | Some v, Some base =>
      if isPlaying then []
      else
        let target := ClipLayer.clipTime base in
        if PrimFloat.ltb 0.1%float
             (PrimFloat.abs
                (PrimFloat.sub (HTMLVideoElement.currentTime v) target))
        then [setCurrentTime target]
        else []
  | _, _ => []
  end.

(** Dependencies of the seek effect:
    [[baseVideoLayer?.clipTime, isPlaying]]. *)
Definition seekDeps (baseVideoLayer : option ClipLayer.t) (isPlaying : bool)
  : option JS.number * bool :=
  (option_map ClipLayer.clipTime baseVideoLayer, isPlaying).

Definition sameSeekDeps (d1 d2 : option JS.number * bool) : bool :=
  match fst d1, fst d2 with
  | Some a, Some b => JS.same_value a b
  | None, None => true
  | _, _ => false
  end && Bool.eqb (snd d1) (snd d2).

(** One render pass of the seek effect: it runs after the first render
    ([prev = None]) and after a render that changed a dependency. *)
Definition seekPass (prev : option (option JS.number * bool))
    (video : option HTMLVideoElement.t)
    (baseVideoLayer : option ClipLayer.t) (isPlaying : bool) : list MediaOp :=
  match prev with
  | Some d =>
      if sameSeekDeps d (seekDeps baseVideoLayer isPlaying) then []
      else seekEffect video baseVideoLayer isPlaying
  | None => seekEffect video baseVideoLayer isPlaying
  end.

(** Body of the play/pause effect. *)
Definition playEffect (video : option HTMLVideoElement.t)
    (baseVideoLayer : option ClipLayer.t) (isPlaying : bool) : list MediaOp :=
  match video, baseVideoLayer with
  | Some _, Some _ => if isPlaying then [play] else [pause]
  | _, _ => []
  end.

(** [handleLoaded], the [onLoadedData] handler of the base video. *)
Definition handleLoaded (video : option HTMLVideoElement.t)
    (baseVideoLayer : option ClipLayer.t) : list MediaOp :=
  match video, baseVideoLayer with
  | Some _, Some base => [setCurrentTime (ClipLayer.clipTime base)]
  | _, _ => []
  end.

(** [seekTo] of the imperative handle. *)
Definition seekTo (video : option HTMLVideoElement.t) (time : JS.number)
  : list MediaOp :=
  match video with
  | Some _ => [setCurrentTime time]
  | None => []
  end.

(** ** Drag gesture *)

Module MouseEvent.
Record t := mk {
  button : Z;
  clientX : JS.number;
  clientY : JS.number
}.
End MouseEvent.

Module DragStart.
Record t := mk {
  x : JS.number;
  y : JS.number;
  layerX : JS.number;
  layerY : JS.number
}.
End DragStart.

Module Props.
(** The destructured props, defaults applied.  A callback prop is
    recorded by whether it was passed; its calls appear in the trace of
    effects. *)
Record t := mk {
  layers : list ClipLayer.t;
  isPlaying : bool;
  onLayerMove : bool;
  onLayerSelect : bool;
  selectedLayerId : option string
}.
End Props.

(** The window listeners installed by the drag effect, with the values their
    closures captured. *)
Module Listeners.
Record t := mk {
  draggingLayer : string;
  dragStart : DragStart.t
}.
End Listeners.

(** Component state: the two [useState] cells and the listeners currently
    registered on [window]. *)
Record State := mkState {
  draggingLayer : option string;
  dragStart : option DragStart.t;
  listeners : option Listeners.t
}.

Definition initialState : State := mkState None None None.

(** Observable effects of the handlers, in call order. *)
Inductive Effect :=
| preventDefault
| stopPropagation
| onLayerSelect (layerId : string)
| onLayerMove (layerId : string) (x y : JS.number).

(** [layer.transform?.x] and [layer.transform?.y]. *)
Definition transformX (layer : ClipLayer.t) : option JS.number :=
  match ClipLayer.transform layer with
  | Some t => ClipTransform.x t
  | None => None
  end.

Definition transformY (layer : ClipLayer.t) : option JS.number :=
  match ClipLayer.transform layer with
  | Some t => ClipTransform.y t
  | None => None
  end.

(** [handleLayerMouseDown]; [None] is an early [return], which leaves the
    state cells alone. *)
Definition handleLayerMouseDown (props : Props.t) (e : MouseEvent.t)
    (layer : ClipLayer.t) : option (State -> State * list Effect) :=
  if ClipLayer.trackId layer =? "V1" then None
  else if negb (MouseEvent.button e =? 0)%Z then None
  else
    Some (fun st =>
      (mkState
         (Some (ClipLayer.id layer))
         (Some (DragStart.mk (MouseEvent.clientX e) (MouseEvent.clientY e)
                  (JS.or_default (transformX layer) 0%float)
                  (JS.or_default (transformY layer) 0%float)))
         (listeners st),
       ([preventDefault; stopPropagation]
          ++ (if Props.onLayerSelect props
              then [onLayerSelect (ClipLayer.id layer)]
              else []))%list)).

(** The drag effect: it returns early unless both state cells are truthy,
    otherwise it registers the two window listeners. *)
Definition dragEffect (st : State) : option Listeners.t :=
  match draggingLayer st, dragStart st with
  | Some layerId, Some start =>
      if JS.truthy_string layerId then Some (Listeners.mk layerId start)
      else None
  | _, _ => None
  end.

Definition handleMouseMove (props : Props.t) (l : Listeners.t)
    (e : MouseEvent.t) : list Effect :=
  let dragStart := Listeners.dragStart l in
  let draggingLayer := Listeners.draggingLayer l in
  let deltaX := PrimFloat.sub (MouseEvent.clientX e) (DragStart.x dragStart) in
  let deltaY := PrimFloat.sub (MouseEvent.clientY e) (DragStart.y dragStart) in
  let newX := PrimFloat.add (DragStart.layerX dragStart) deltaX in
  let newY := PrimFloat.add (DragStart.layerY dragStart) deltaY in
  if Props.onLayerMove props
  then [onLayerMove draggingLayer newX newY]
  else [].

Definition handleMouseUp (st : State) : State :=
  mkState None None (listeners st).

(** Re-render after a state change: the cleanup of the previous drag effect
    removes its listeners and the effect runs again on the new state. *)
Definition commit (st : State) : State :=
  mkState (draggingLayer st) (dragStart st) (dragEffect st).

Definition isOverlay (layer : ClipLayer.t) : bool :=
  negb (ClipLayer.trackId layer =? "V1").

(** Whether the element rendered for [layer] carries an [onMouseDown]
    handler: audio layers render nothing, and only overlays are wired. *)
Definition hasMouseDown (layer : ClipLayer.t) : bool :=
  match ClipLayer.type layer with
  | video | image => isOverlay layer
  | audio => false
  end.

Inductive Event :=
| LayerMouseDown (e : MouseEvent.t) (layer : ClipLayer.t)
| WindowMouseMove (e : MouseEvent.t)
| WindowMouseUp (e : MouseEvent.t).

(** One event.  A handler that sets state is followed by a re-render
    ([commit]); an event without a handler, or whose handler returns early,
    changes nothing. *)
Definition step (props : Props.t) (st : State) (ev : Event)
  : State * list Effect :=
  match ev with
  | LayerMouseDown e layer =>
      if hasMouseDown layer then
        match handleLayerMouseDown props e layer with
        | Some update => let (st', out) := update st in (commit st', out)
        | None => (st, [])
        end
      else (st, [])
  | WindowMouseMove e =>
      match listeners st with
      | Some l => (st, handleMouseMove props l e)
      | None => (st, [])
      end
  | WindowMouseUp e =>
      match listeners st with
      | Some _ => (commit (handleMouseUp st), [])
      | None => (st, [])
      end
  end.

Fixpoint run (props : Props.t) (st : State) (evs : list Event)
  : State * list Effect :=
  match evs with
  | [] => (st, [])
  | ev :: evs' =>
      let (st1, out1) := step props st ev in
      let (st2, out2) := run props st1 evs' in
      (st2, (out1 ++ out2)%list)
  end.

(** The layer ids of the [onLayerSelect] calls and the [onLayerMove] calls
    of a trace. *)
Definition selects (out : list Effect) : list string :=
  List.flat_map
    (fun eff => match eff with onLayerSelect layerId => [layerId] | _ => [] end)
    out.

Definition moves (out : list Effect) : list Effect :=
  List.filter
    (fun eff => match eff with onLayerMove _ _ _ => true | _ => false end)
    out.

(** A pointer-down that starts a gesture: primary button on a rendered
    layer off the base track. *)
Definition qualifying (ev : Event) : bool :=
  match ev with
  | LayerMouseDown e layer =>
      hasMouseDown layer && (MouseEvent.button e =? 0)%Z
  | _ => false
  end.

(** ** Render *)

Module VideoElement.
Record t := mk {
  key : string;
  ref : bool;
  src : string;
  className : string;
  style : CSSProperties.t;
  onLoadedData : bool;
  muted : bool;
  onMouseDown : bool
}.
End VideoElement.

Module ImageElement.
Record t := mk {
  key : string;
  className : string;
  style : CSSProperties.t;
  pointerEvents : string;
  onMouseDown : bool;
  src : string;
  selectionRing : bool;
  dragHandle : bool
}.
End ImageElement.

Inductive Element :=
| VideoTag (v : VideoElement.t)
| ImageTag (i : ImageElement.t).

Definition option_string_eqb (a : option string) (b : string) : bool :=
  match a with
  | Some s => s =? b
  | None => false
  end.

Section Render.

Variable numberToString : JS.number -> string.
Variable localeCompare : string -> string -> Z.

(** The callback of [sortedLayers.map]. *)
Definition renderLayer (props : Props.t) (st : State)
    (layer : ClipLayer.t) (index : JS.number) : option Element :=
  let isBaseVideo := isBaseVideo layer in
  let isOverlay := isOverlay layer in
  let isDragging := option_string_eqb (draggingLayer st) (ClipLayer.id layer) in
  let isSelected :=
    option_string_eqb (Props.selectedLayerId props) (ClipLayer.id layer) in
  let styles :=
    getTransformStyles numberToString (ClipLayer.transform layer)
      (Some (PrimFloat.add index 1%float)) (Some isDragging) in
  match ClipLayer.type layer with
  | video =>
      Some (VideoTag {|
        VideoElement.key := ClipLayer.id layer;
        VideoElement.ref := isBaseVideo;
        VideoElement.src := ClipLayer.url layer;
        VideoElement.className :=
          "absolute inset-0 w-full h-full object-contain "
            ++ (if isOverlay then "cursor-grab active:cursor-grabbing" else "")
            ++ " "
            ++ (if isSelected && isOverlay
                then "ring-2 ring-orange-500 ring-offset-2 ring-offset-black"
                else "");
        VideoElement.style := styles;
        VideoElement.onLoadedData := isBaseVideo;
        VideoElement.muted := negb isBaseVideo;
        VideoElement.onMouseDown := isOverlay |})
  | image =>
      Some (ImageTag {|
        ImageElement.key := ClipLayer.id layer;
        ImageElement.className :=
          "absolute inset-0 w-full h-full "
            ++ (if isOverlay then "cursor-grab active:cursor-grabbing" else "");
        ImageElement.style := styles;
        ImageElement.pointerEvents := if isOverlay then "auto" else "none";
        ImageElement.onMouseDown := isOverlay;
        ImageElement.src := ClipLayer.url layer;
        ImageElement.selectionRing := isSelected && isOverlay;
        ImageElement.dragHandle := isOverlay && negb isDragging |})
  | audio => None
  end.

(** The children rendered for the layers, in paint order. *)
Definition renderLayers (props : Props.t) (st : State)
  : list (option Element) :=
  JS.mapi (renderLayer props st)
    (sortedLayers localeCompare (Props.layers props)).

End Render.

(** The video elements of a render that are not muted. *)
Definition unmuted (els : list (option Element)) : list VideoElement.t :=
  List.flat_map
    (fun el =>
       match el with
       | Some (VideoTag v) => if VideoElement.muted v then [] else [v]
       | _ => []
       end)
    els.

(** ** Layer sets of the specification's scenarios *)

(** The end-to-end scenario: a video on the base track and an image
    overlay. *)
Definition scenarioA : ClipLayer.t :=
  ClipLayer.mk "A" "a.mp4" video "V1" 5%float None.

Definition scenarioB : ClipLayer.t :=
  ClipLayer.mk "B" "b.png" image "V2" 0%float
    (Some (ClipTransform.mk (Some 0%float) (Some 0%float)
             None None None None None None None)).

(** An overlay placed at (30, 40). *)
Definition overlayPlaced : ClipLayer.t :=
  ClipLayer.mk "P" "p.png" image "V2" 0%float
    (Some (ClipTransform.mk (Some 30%float) (Some 40%float)
             None None None None None None None)).

(** A second video on the base track. *)
Definition scenarioA2 : ClipLayer.t :=
  ClipLayer.mk "A2" "a2.mp4" video "V1" 7%float None.

(** Two overlays whose track identifiers differ in case. *)
Definition overlayLower : ClipLayer.t :=
  ClipLayer.mk "L" "lower.png" image "a" 0%float None.

Definition overlayUpper : ClipLayer.t :=
  ClipLayer.mk "U" "upper.png" image "B" 0%float None.

(** The gesture of the end-to-end scenario: the primary button goes down on
    layer B, the pointer moves by (+20, +15), and a button is released
    elsewhere. *)
Definition scenarioProps : Props.t :=
  Props.mk [scenarioA; scenarioB] false true true None.

Definition pointerDown : MouseEvent.t := MouseEvent.mk 0 100%float 100%float.

Definition pointerMove : MouseEvent.t := MouseEvent.mk 0 120%float 115%float.

Definition pointerUp : MouseEvent.t := MouseEvent.mk 2 300%float 40%float.

(** Props with two videos on the base track. *)
Definition twoBaseProps : Props.t :=
  Props.mk [scenarioA; scenarioA2] false true true None.

(** ** The component's render and observers of its output *)

Definition typeName (m : MediaType) : string :=
  match m with
  | video => "video"
  | image => "image"
  | audio => "audio"
  end.

(** The container rendered for a non-empty layer set: the layer children and
    the three indicators. *)
Module Composite.
Record t := mk {
  children : list (option Element);
  layerCount : option nat;
  playIcon : bool;
  typeLabel : option string;
  draggingIndicator : bool
}.
End Composite.

Inductive Rendered :=
| EmptyState
| Layers (c : Composite.t).

Section RenderComponent.

Variable numberToString : JS.number -> string.
Variable localeCompare : string -> string -> Z.

(** The returned JSX of [VideoPreview]: the placeholder for an empty layer
    set, otherwise the children in paint order, the "n layers" badge when
    there is more than one layer, the type indicator (play icon and "video"
    with a base layer, else the image icon and the type of [layers[0]]) and
    the "Dragging..." badge while [draggingLayer] is truthy. *)
Definition render (props : Props.t) (st : State) : Rendered :=
  let layers := Props.layers props in
  if (List.length layers =? 0)%nat then EmptyState
  else
    Layers {|
      Composite.children :=
        renderLayers numberToString localeCompare props st;
      Composite.layerCount :=
        if (1 <? List.length layers)%nat then Some (List.length layers)
        else None;
      Composite.playIcon :=
        match baseVideoLayer layers with
        | Some _ => true
        | None => false
        end;
      Composite.typeLabel :=
        match baseVideoLayer layers with
        | Some _ => Some "video"
        | None =>
            option_map (fun l => typeName (ClipLayer.type l))
              (List.hd_error layers)
        end;
      Composite.draggingIndicator :=
        match draggingLayer st with
        | Some layerId => JS.truthy_string layerId
        | None => false
        end |}.

End RenderComponent.

(** The elements of a list of children, the empty slots of audio layers
    left out. *)
Definition elements (els : list (option Element)) : list Element :=
  List.flat_map
    (fun el => match el with Some e => [e] | None => [] end) els.

Definition elementKey (el : Element) : string :=
  match el with
  | VideoTag v => VideoElement.key v
  | ImageTag i => ImageElement.key i
  end.

Definition elementStyle (el : Element) : CSSProperties.t :=
  match el with
  | VideoTag v => VideoElement.style v
  | ImageTag i => ImageElement.style i
  end.

Definition elementOnMouseDown (el : Element) : bool :=
  match el with
  | VideoTag v => VideoElement.onMouseDown v
  | ImageTag i => ImageElement.onMouseDown i
  end.

(** Whether a layer renders an element: audio layers render [null]. *)
Definition rendersElement (layer : ClipLayer.t) : bool :=
  negb (MediaType_eqb (ClipLayer.type layer) audio).

(** The video elements that receive [videoRef]. *)
Definition withRef (els : list (option Element)) : list VideoElement.t :=
  List.flat_map
    (fun el =>
       match el with
       | Some (VideoTag v) => if VideoElement.ref v then [v] else []
       | _ => []
       end)
    els.

(** ** Observers of transforms and event traces *)

(** A transform with every absent field replaced by the value the resolver
    defaults it to. *)
Definition withDefaults (t : ClipTransform.t) : ClipTransform.t :=
  ClipTransform.mk
    (Some (JS.nullish (ClipTransform.x t) 0%float))
    (Some (JS.nullish (ClipTransform.y t) 0%float))
    (Some (JS.nullish (ClipTransform.scale t) 1%float))
    (Some (JS.nullish (ClipTransform.rotation t) 0%float))
    (Some (JS.nullish (ClipTransform.opacity t) 1%float))
    (Some (JS.nullish (ClipTransform.cropTop t) 0%float))
    (Some (JS.nullish (ClipTransform.cropBottom t) 0%float))
    (Some (JS.nullish (ClipTransform.cropLeft t) 0%float))
    (Some (JS.nullish (ClipTransform.cropRight t) 0%float)).

Definition keepTruthy (v : option JS.number) : option JS.number :=
  match v with
  | Some n => if JS.truthy n then Some n else None
  | None => None
  end.

(** A transform without its falsy position, rotation and crop values and
    without a scale that is falsy or 1; the opacity is kept as it is. *)
Definition withoutNeutral (t : ClipTransform.t) : ClipTransform.t :=
  ClipTransform.mk
    (keepTruthy (ClipTransform.x t))
    (keepTruthy (ClipTransform.y t))
    (match ClipTransform.scale t with
     | Some s => if JS.truthy s && JS.strict_neq s 1%float then Some s else None
     | None => None
     end)
    (keepTruthy (ClipTransform.rotation t))
    (ClipTransform.opacity t)
    (keepTruthy (ClipTransform.cropTop t))
    (keepTruthy (ClipTransform.cropBottom t))
    (keepTruthy (ClipTransform.cropLeft t))
    (keepTruthy (ClipTransform.cropRight t)).

(** The layer ids of the qualifying pointer-downs of a trace, in order. *)
Definition qualifyingIds (evs : list Event) : list string :=
  List.flat_map
    (fun ev =>
       match ev with
       | LayerMouseDown e layer =>
           if qualifying ev then [ClipLayer.id layer] else []
       | _ => []
       end)
    evs.

(** The request a pointer-move at [e] produces in the session that the
    pointer-down [down] on [layer] started. *)
Definition moveRequest (down : MouseEvent.t) (layer : ClipLayer.t)
    (e : MouseEvent.t) : Effect :=
  onLayerMove (ClipLayer.id layer)
    (PrimFloat.add (JS.or_default (transformX layer) 0%float)
       (PrimFloat.sub (MouseEvent.clientX e) (MouseEvent.clientX down)))
    (PrimFloat.add (JS.or_default (transformY layer) 0%float)
       (PrimFloat.sub (MouseEvent.clientY e) (MouseEvent.clientY down))).

(** A stand-in for the host's number formatting, for examples whose result
    does not depend on it. *)
Definition someNumberToString : JS.number -> string := fun _ => "n".

(** A second overlay and a second pointer-down, for traces with two
    gestures. *)
Definition scenarioC : ClipLayer.t :=
  ClipLayer.mk "C" "c.mp4" video "V3" 1%float None.

Definition pointerDown2 : MouseEvent.t :=
  MouseEvent.mk 0 200%float 50%float.

(** * Properties *)

(** ** Host semantics *)

Lemma truthy_iff (n : JS.number) :
  JS.truthy n = true <->
  PrimFloat.eqb n 0%float = false /\ PrimFloat.is_nan n = false.
Proof.
  unfold JS.truthy, PrimFloat.is_nan.
  destruct (PrimFloat.eqb n 0%float), (PrimFloat.eqb n n); simpl;
    intuition congruence.
Qed.

Lemma truthy_not_zero (n : JS.number) :
  JS.truthy n = true -> n <> 0%float.
Proof.
  intros H ->. discriminate H.
Qed.

Lemma or_default_truthy (n d : JS.number) :
  JS.truthy n = true -> JS.or_default (Some n) d = n.
Proof.
  intros H. unfold JS.or_default, JS.or. now rewrite H.
Qed.

Lemma or_default_falsy (n d : JS.number) :
  JS.truthy n = false -> JS.or_default (Some n) d = d.
Proof.
  intros H. unfold JS.or_default, JS.or. now rewrite H.
Qed.

Lemma truthy_or_default_zero (v : option JS.number) :
  JS.truthy (JS.or_default v 0%float) = JS.truthy_opt v.
Proof.
  destruct v as [n|]; simpl; [|reflexivity].
  unfold JS.or. destruct (JS.truthy n) eqn:E; [exact E | reflexivity].
Qed.

Lemma truthy_or (a b : JS.number) :
  JS.truthy (JS.or a b) = JS.truthy a || JS.truthy b.
Proof.
  unfold JS.or. destruct (JS.truthy a) eqn:E; [exact E | reflexivity].
Qed.

(** ** Transform resolver *)

Section TransformResolverFacts.

Variable numberToString : JS.number -> string.

Lemma transforms_parts (t : ClipTransform.t) :
  transforms numberToString t =
    ((if JS.truthy_opt (ClipTransform.x t) || JS.truthy_opt (ClipTransform.y t)
      then [translateCss numberToString
              (JS.or_default (ClipTransform.x t) 0%float)
              (JS.or_default (ClipTransform.y t) 0%float)]
      else [])
     ++ (match ClipTransform.scale t with
         | Some s =>
             if JS.truthy s && JS.strict_neq s 1%float
             then [scaleCss numberToString s] else []
         | None => []
         end)
     ++ (match ClipTransform.rotation t with
         | Some r =>
             if JS.truthy r then [rotateCss numberToString r] else []
         | None => []
         end))%list.
Proof.
  unfold transforms, JS.push.
  destruct (JS.truthy_opt (ClipTransform.x t)
            || JS.truthy_opt (ClipTransform.y t));
    destruct (ClipTransform.scale t) as [s|];
    destruct (ClipTransform.rotation t) as [r|];
    try destruct (JS.truthy s && JS.strict_neq s 1%float);
    try destruct (JS.truthy r); reflexivity.
Qed.

Lemma has_clip_truthy (t : ClipTransform.t) :
  JS.truthy (hasClip t) =
    JS.truthy_opt (ClipTransform.cropTop t)
    || JS.truthy_opt (ClipTransform.cropBottom t)
    || JS.truthy_opt (ClipTransform.cropLeft t)
    || JS.truthy_opt (ClipTransform.cropRight t).
Proof.
  unfold hasClip. now rewrite !truthy_or, !truthy_or_default_zero.
Qed.


(** C7. The crop description depends on the four crop fields only: any
    other position, scale, rotation or opacity (and any z-index or drag
    flag) gives the same one.  It is the inset
    "inset(TOP% RIGHT% BOTTOM% LEFT%)" of the four edges, with an absent or
    zero field as 0 and the numbers formatted by the host, and it is present
    exactly when at least one of the four crop fields is non-zero (truthy);
    [{scale: 2, cropLeft: 50}] is inset by 50 on the left and 0 elsewhere,
    as it is without the scale. *)
Theorem crop_independent_of_transform :
  (forall (t : ClipTransform.t) x' y' scale' rotation' opacity' z d z' d',
      CSSProperties.clipPath
        (getTransformStyles numberToString (Some t) z d) =
      CSSProperties.clipPath
        (getTransformStyles numberToString
           (Some (ClipTransform.mk x' y' scale' rotation' opacity'
                    (ClipTransform.cropTop t) (ClipTransform.cropBottom t)
                    (ClipTransform.cropLeft t) (ClipTransform.cropRight t)))
           z' d'))
  /\ (forall (t : ClipTransform.t) z d,
        CSSProperties.clipPath
          (getTransformStyles numberToString (Some t) z d) =
        if JS.truthy_opt (ClipTransform.cropTop t)
           || JS.truthy_opt (ClipTransform.cropBottom t)
           || JS.truthy_opt (ClipTransform.cropLeft t)
           || JS.truthy_opt (ClipTransform.cropRight t)
        then Some ("inset("
                     ++ numberToString
                          (JS.or_default (ClipTransform.cropTop t) 0%float)
                     ++ "% "
                     ++ numberToString
                          (JS.or_default (ClipTransform.cropRight t) 0%float)
                     ++ "% "
                     ++ numberToString
                          (JS.or_default (ClipTransform.cropBottom t) 0%float)
                     ++ "% "
                     ++ numberToString
                          (JS.or_default (ClipTransform.cropLeft t) 0%float)
                     ++ "%)")
        else None)
  /\ (forall (t : ClipTransform.t) z d,
        CSSProperties.clipPath
          (getTransformStyles numberToString (Some t) z d) <> None <->
        JS.truthy_opt (ClipTransform.cropTop t) = true
        \/ JS.truthy_opt (ClipTransform.cropBottom t) = true
        \/ JS.truthy_opt (ClipTransform.cropLeft t) = true
        \/ JS.truthy_opt (ClipTransform.cropRight t) = true)
  /\ (forall z d,
        CSSProperties.clipPath (getTransformStyles numberToString None z d) =
        None)
  /\ CSSProperties.clipPath
       (getTransformStyles numberToString (Some cropExample) None None) =
     Some ("inset(" ++ numberToString 0%float ++ "% "
             ++ numberToString 0%float ++ "% "
             ++ numberToString 0%float ++ "% "
             ++ numberToString 50%float ++ "%)")
  /\ CSSProperties.clipPath
       (getTransformStyles numberToString (Some cropExample) None None) =
     CSSProperties.clipPath
       (getTransformStyles numberToString
          (Some (ClipTransform.mk None None None None None None None
                   (Some 50%float) None))
          None None).
Proof.
  assert (Hif : forall (t : ClipTransform.t) z d,
             CSSProperties.clipPath
               (getTransformStyles numberToString (Some t) z d) =
             if JS.truthy_opt (ClipTransform.cropTop t)
                || JS.truthy_opt (ClipTransform.cropBottom t)
                || JS.truthy_opt (ClipTransform.cropLeft t)
                || JS.truthy_opt (ClipTransform.cropRight t)
             then Some (insetCss numberToString
                          (JS.or_default (ClipTransform.cropTop t) 0%float)
                          (JS.or_default (ClipTransform.cropRight t) 0%float)
                          (JS.or_default (ClipTransform.cropBottom t) 0%float)
                          (JS.or_default (ClipTransform.cropLeft t) 0%float))
             else None).
  { intros t z d. simpl. unfold clipPathOf. now rewrite has_clip_truthy. }
  split; [|split; [|split; [|split; [|split]]]].
  - intros. now rewrite !Hif.
  - exact Hif.
  - intros t z d. rewrite Hif. split.
    + destruct (JS.truthy_opt (ClipTransform.cropTop t)),
        (JS.truthy_opt (ClipTransform.cropBottom t)),
        (JS.truthy_opt (ClipTransform.cropLeft t)),
        (JS.truthy_opt (ClipTransform.cropRight t)); simpl; auto; congruence.
    + intros [H|[H|[H|H]]]; rewrite H, ?orb_true_r; discriminate.
  - reflexivity.
  - reflexivity.
  - reflexivity.
Qed.

(** C8. The resolver is a total function of its three optional arguments.
    Its z-index is the one passed (0 when omitted), its opacity is the
    transform's (1 when the field or the transform is absent), its cursor is
    "grabbing" exactly when [isDragging] is true, and an absent transform
    resolves like the empty one: no transform list, no crop, opacity 1. *)
Theorem getTransformStyles_total :
  (forall transform zIndex isDragging,
      exists css : CSSProperties.t,
        getTransformStyles numberToString transform zIndex isDragging = css
        /\ CSSProperties.zIndex css =
             match zIndex with Some z => z | None => 0%float end
        /\ CSSProperties.opacity css =
             match transform with
             | Some t =>
                 match ClipTransform.opacity t with
                 | Some o => o
                 | None => 1%float
                 end
             | None => 1%float
             end
        /\ (CSSProperties.cursor css = Some "grabbing" <->
             isDragging = Some true)
        /\ (CSSProperties.cursor css = None <-> isDragging <> Some true))
  /\ (forall zIndex isDragging,
        getTransformStyles numberToString None zIndex isDragging =
        getTransformStyles numberToString (Some ClipTransform.empty)
          zIndex isDragging)
  /\ (forall zIndex isDragging,
        getTransformStyles numberToString None zIndex isDragging =
        {| CSSProperties.zIndex :=
             match zIndex with Some z => z | None => 0%float end;
           CSSProperties.transform := None;
           CSSProperties.opacity := 1%float;
           CSSProperties.clipPath := None;
           CSSProperties.cursor :=
             match isDragging with
             | Some true => Some "grabbing"
             | _ => None
             end |}).
Proof.
  split; [|split].
  - intros transform zIndex isDragging. eexists. split; [reflexivity|].
    split; [now destruct zIndex|].
    split; [now destruct transform as [t|]|].
    simpl. destruct isDragging as [[|]|]; repeat split; congruence.
  - reflexivity.
  - intros zIndex isDragging. now destruct zIndex.
Qed.

End TransformResolverFacts.

(** ** Base layer *)

Lemma isBaseVideo_iff (l : ClipLayer.t) :
  isBaseVideo l = true <->
  ClipLayer.trackId l = "V1" /\ ClipLayer.type l = video.
Proof.
  unfold isBaseVideo. rewrite andb_true_iff, String.eqb_eq.
  destruct (ClipLayer.type l); simpl; intuition congruence.
Qed.

Lemma find_some_first {A : Type} (p : A -> bool) (l : list A) (a : A) :
  List.find p l = Some a <->
  exists before after,
    l = (before ++ a :: after)%list /\ p a = true
    /\ Forall (fun b => p b = false) before.
Proof.
  induction l as [|b l IH]; simpl.
  - split; [discriminate|]. intros (before & after & H & _).
    now destruct before.
  - destruct (p b) eqn:E.
    + split.
      * intros [= ->]. exists [], l. auto.
      * intros ([|b' before] & after & H & Ha & Hb); simpl in H.
        -- congruence.
        -- injection H as -> ->. inversion Hb; congruence.
    + rewrite IH. split.
      * intros (before & after & -> & Ha & Hb).
        exists (b :: before), after. auto.
      * intros ([|b' before] & after & H & Ha & Hb); simpl in H.
        -- congruence.
        -- injection H as -> ->. inversion Hb. eauto.
Qed.

Lemma find_none_all {A : Type} (p : A -> bool) (l : list A) :
  List.find p l = None <-> Forall (fun b => p b = false) l.
Proof.
  induction l as [|b l IH]; simpl.
  - split; auto.
  - destruct (p b) eqn:E.
    + split; [discriminate|]. inversion 1; congruence.
    + rewrite IH. split; [auto|]. now inversion 1.
Qed.

(** C4. The base layer is the first layer of the input, in input order, on
    track "V1" and of kind video: it is selected exactly when no layer in
    front of it qualifies; no base layer is selected exactly when no layer
    qualifies; and of two (or more) qualifying layers the first one is the
    base layer. *)
Theorem baseVideoLayer_first_match (layers : list ClipLayer.t) :
  (forall base,
      baseVideoLayer layers = Some base <->
      exists before after,
        layers = (before ++ base :: after)%list
        /\ (ClipLayer.trackId base = "V1" /\ ClipLayer.type base = video)
        /\ Forall (fun l => ~ (ClipLayer.trackId l = "V1"
                               /\ ClipLayer.type l = video)) before)
  /\ (baseVideoLayer layers = None <->
      Forall (fun l => ~ (ClipLayer.trackId l = "V1"
                          /\ ClipLayer.type l = video)) layers)
  /\ (forall before first between second after,
        layers = (before ++ first :: between ++ second :: after)%list ->
        Forall (fun l => isBaseVideo l = false) before ->
        isBaseVideo first = true ->
        isBaseVideo second = true ->
        baseVideoLayer layers = Some first).
Proof.
  assert (Hneg : forall l : list ClipLayer.t,
             Forall (fun l => isBaseVideo l = false) l <->
             Forall (fun l => ~ (ClipLayer.trackId l = "V1"
                                 /\ ClipLayer.type l = video)) l).
  { intros l. rewrite !Forall_forall. split; intros H a Ha.
    - rewrite <- isBaseVideo_iff. rewrite (H a Ha). discriminate.
    - specialize (H a Ha). rewrite <- isBaseVideo_iff in H.
      now destruct (isBaseVideo a). }
  unfold baseVideoLayer. split; [|split].
  - intros base. rewrite find_some_first. split.
    + intros (before & after & H & Hb & Hf). exists before, after.
      rewrite <- isBaseVideo_iff, <- Hneg. auto.
    + intros (before & after & H & Hb & Hf). exists before, after.
      rewrite isBaseVideo_iff, Hneg. auto.
  - now rewrite find_none_all, Hneg.
  - intros before first between second after -> Hf H1 _.
    apply find_some_first. eauto.
Qed.

Lemma baseVideoLayer_first_match_witness :
  baseVideoLayer [scenarioB; scenarioA; scenarioA2] = Some scenarioA.
Proof.
  apply (proj2 (proj2 (baseVideoLayer_first_match
                         [scenarioB; scenarioA; scenarioA2]))
           [scenarioB] scenarioA [] scenarioA2 []).
  - reflexivity.
  - repeat constructor.
  - reflexivity.
  - reflexivity.
Defined.

(** ** Clock synchronizer *)

Lemma seekEffect_bound (v : HTMLVideoElement.t) (base : ClipLayer.t) :
  seekEffect (Some v) (Some base) false =
    if PrimFloat.ltb 0.1%float
         (PrimFloat.abs
            (PrimFloat.sub (HTMLVideoElement.currentTime v)
               (ClipLayer.clipTime base)))
    then [setCurrentTime (ClipLayer.clipTime base)]
    else [].
Proof. reflexivity. Qed.

Lemma seekEffect_playing video base : seekEffect video base true = [].
Proof. now destruct video, base. Qed.

Lemma same_value_refl (a : JS.number) : JS.same_value a a = true.
Proof. unfold JS.same_value. now apply Leibniz.eqb_spec. Qed.

Lemma sameSeekDeps_iff (d1 d2 : option JS.number * bool) :
  sameSeekDeps d1 d2 = true <-> d1 = d2.
Proof.
  destruct d1 as [[a|] p], d2 as [[b|] q]; unfold sameSeekDeps; simpl;
    rewrite ?andb_true_iff, ?Bool.eqb_true_iff;
    unfold JS.same_value; rewrite ?Leibniz.eqb_spec;
    split; intros H; try discriminate; try (destruct H; congruence);
    try (injection H as -> ->; auto); try (injection H as ->; auto).
Qed.

(** C3, amended.  With the video element bound to a base layer and
    [isPlaying] false, a run of the seek effect asks for the position
    [clipTime] of the base layer exactly when the absolute difference between
    the element's position and [clipTime] is greater than 0.1, and otherwise
    asks for nothing: a difference of 0.05 asks for nothing, a difference of
    0.2 for the position.  The effect runs in the pass after the first
    render and in a pass whose [clipTime] or [isPlaying] differs from the
    previous pass, so such a pass seeks exactly when the difference exceeds
    0.1; a pass in which neither changed asks for nothing.  With
    [isPlaying] true neither the effect nor a render pass asks for a
    position. *)
Theorem seek_reconciliation (v : HTMLVideoElement.t) (base : ClipLayer.t) :
  let difference :=
    PrimFloat.abs
      (PrimFloat.sub (HTMLVideoElement.currentTime v) (ClipLayer.clipTime base))
  in
  (seekEffect (Some v) (Some base) false =
     [setCurrentTime (ClipLayer.clipTime base)] <->
   PrimFloat.ltb 0.1%float difference = true)
  /\ (seekEffect (Some v) (Some base) false = [] <->
      PrimFloat.ltb 0.1%float difference = false)
  /\ (difference = 0.05%float -> seekEffect (Some v) (Some base) false = [])
  /\ (difference = 0.2%float ->
      seekEffect (Some v) (Some base) false =
        [setCurrentTime (ClipLayer.clipTime base)])
  /\ (seekPass None (Some v) (Some base) false =
        [setCurrentTime (ClipLayer.clipTime base)] <->
      PrimFloat.ltb 0.1%float difference = true)
  /\ (forall prev,
        seekPass (Some prev) (Some v) (Some base) false =
          [setCurrentTime (ClipLayer.clipTime base)] <->
        prev <> (Some (ClipLayer.clipTime base), false)
        /\ PrimFloat.ltb 0.1%float difference = true)
  /\ (forall prev,
        seekPass (Some prev) (Some v) (Some base) false = [] <->
        prev = (Some (ClipLayer.clipTime base), false)
        \/ PrimFloat.ltb 0.1%float difference = false)
  /\ (forall wasPlaying previousTime,
        wasPlaying = true
        \/ previousTime <> Some (ClipLayer.clipTime base) ->
        seekPass (Some (previousTime, wasPlaying)) (Some v) (Some base) false =
        if PrimFloat.ltb 0.1%float difference
        then [setCurrentTime (ClipLayer.clipTime base)]
        else [])
  /\ (forall video baseLayer, seekEffect video baseLayer true = [])
  /\ (forall prev video baseLayer, seekPass prev video baseLayer true = []).
Proof.
  intros difference.
  assert (Hpass : forall prev,
             seekPass (Some prev) (Some v) (Some base) false =
             if sameSeekDeps prev (Some (ClipLayer.clipTime base), false)
             then []
             else if PrimFloat.ltb 0.1%float difference
                  then [setCurrentTime (ClipLayer.clipTime base)]
                  else []).
  { intros prev. unfold seekPass, seekDeps. simpl option_map.
    now destruct (sameSeekDeps prev (Some (ClipLayer.clipTime base), false)). }
  unfold seekPass at 1. rewrite seekEffect_bound. fold difference.
  repeat match goal with |- _ /\ _ => split end.
  - destruct (PrimFloat.ltb 0.1%float difference); split;
      congruence || discriminate.
  - destruct (PrimFloat.ltb 0.1%float difference); split;
      congruence || discriminate.
  - intros ->. reflexivity.
  - intros ->. reflexivity.
  - destruct (PrimFloat.ltb 0.1%float difference); split;
      congruence || discriminate.
  - intros prev. rewrite Hpass.
    destruct (sameSeekDeps prev (Some (ClipLayer.clipTime base), false))
      eqn:E.
    + apply sameSeekDeps_iff in E. split; [discriminate | tauto].
    + assert (prev <> (Some (ClipLayer.clipTime base), false)).
      { intros H. apply sameSeekDeps_iff in H. congruence. }
      destruct (PrimFloat.ltb 0.1%float difference); split;
        try tauto; try discriminate. intros [_ H']. discriminate H'.
  - intros prev. rewrite Hpass.
    destruct (sameSeekDeps prev (Some (ClipLayer.clipTime base), false))
      eqn:E.
    + apply sameSeekDeps_iff in E. tauto.
    + assert (prev <> (Some (ClipLayer.clipTime base), false)).
      { intros H. apply sameSeekDeps_iff in H. congruence. }
      destruct (PrimFloat.ltb 0.1%float difference); split;
        try tauto; try discriminate.
      intros [H'|H']; [tauto | discriminate H'].
  - intros wasPlaying previousTime Hchanged. rewrite Hpass.
    destruct (sameSeekDeps (previousTime, wasPlaying)
                (Some (ClipLayer.clipTime base), false)) eqn:E;
      [|reflexivity].
    apply sameSeekDeps_iff in E. injection E as -> ->.
    destruct Hchanged; congruence.
  - apply seekEffect_playing.
  - intros [d|] video baseLayer; simpl; rewrite seekEffect_playing;
      [now destruct (sameSeekDeps _ _) | reflexivity].
Qed.

(** The tolerance on the positions of the specification's scenario, where
    [clipTime] is 5: at 5.05 and 4.95 nothing is set, at 5.2 and 4.8 the
    position is set to 5. *)
Lemma seek_reconciliation_witness :
  seekEffect (Some (HTMLVideoElement.mk 5.05%float true)) (Some scenarioA) false
    = []
  /\ seekEffect (Some (HTMLVideoElement.mk 4.95%float true)) (Some scenarioA)
       false = []
  /\ seekEffect (Some (HTMLVideoElement.mk 5.2%float true)) (Some scenarioA)
       false = [setCurrentTime 5%float]
  /\ seekEffect (Some (HTMLVideoElement.mk 4.8%float true)) (Some scenarioA)
       false = [setCurrentTime 5%float].
Proof.
  split; [|split; [|split]].
  - apply (proj1 (proj2 (seek_reconciliation
                           (HTMLVideoElement.mk 5.05%float true) scenarioA))).
    reflexivity.
  - apply (proj1 (proj2 (seek_reconciliation
                           (HTMLVideoElement.mk 4.95%float true) scenarioA))).
    reflexivity.
  - apply (proj1 (seek_reconciliation
                    (HTMLVideoElement.mk 5.2%float true) scenarioA)).
    reflexivity.
  - apply (proj1 (seek_reconciliation
                    (HTMLVideoElement.mk 4.8%float true) scenarioA)).
    reflexivity.
Defined.

(** C3 as stated fails: the element is bound and paused, 95 seconds away
    from the base layer's [clipTime] of 5, and the pass that follows a
    render with the same [clipTime] and [isPlaying] asks for no position. *)
Lemma paused_pass_without_change_does_not_seek :
  PrimFloat.ltb 0.1%float
    (PrimFloat.abs
       (PrimFloat.sub 100%float (ClipLayer.clipTime scenarioA))) = true
  /\ seekPass (Some (Some 5%float, false))
       (Some (HTMLVideoElement.mk 100%float true)) (Some scenarioA) false = []
  /\ seekPass (Some (Some 5%float, false))
       (Some (HTMLVideoElement.mk 100%float true)) (Some scenarioA) false <>
     [setCurrentTime (ClipLayer.clipTime scenarioA)].
Proof.
  split; [reflexivity|]. split; [reflexivity | discriminate].
Qed.

(** ** Layer ordering *)

Section SortFacts.

Context {A : Type}.
Variable comparefn : A -> A -> Z.

Lemma insert_permutation (a : A) (l : list A) :
  Permutation (a :: l) (JS.insert comparefn a l).
Proof.
  induction l as [|b l IH]; simpl; [reflexivity|].
  destruct (comparefn a b <=? 0)%Z; [reflexivity|].
  rewrite perm_swap. now apply perm_skip.
Qed.

Lemma sort_permutation (l : list A) : Permutation l (JS.sort comparefn l).
Proof.
  induction l as [|a l IH]; simpl; [constructor|].
  rewrite <- insert_permutation. now apply perm_skip.
Qed.

(** An element kept by [p] goes in front of the kept elements it is not
    placed after; an element dropped by [p] does not disturb them. *)
Lemma insert_filter_kept (p : A -> bool) (a : A) (l : list A) :
  p a = true ->
  (forall b, p b = true -> notAfter comparefn a b) ->
  filter p (JS.insert comparefn a l) = a :: filter p l.
Proof.
  intros Ha Hfront. induction l as [|b l IH]; simpl.
  - now rewrite Ha.
  - destruct (comparefn a b <=? 0)%Z eqn:E; simpl.
    + now rewrite Ha.
    + destruct (p b) eqn:Hb; [|exact IH].
      apply Hfront in Hb. unfold notAfter in Hb. lia.
Qed.

Lemma insert_filter_dropped (p : A -> bool) (a : A) (l : list A) :
  p a = false ->
  filter p (JS.insert comparefn a l) = filter p l.
Proof.
  intros Ha. induction l as [|b l IH]; simpl.
  - now rewrite Ha.
  - destruct (comparefn a b <=? 0)%Z; simpl.
    + now rewrite Ha.
    + now rewrite IH.
Qed.

Lemma sort_filter (p : A -> bool) (l : list A) :
  (forall a b, p a = true -> p b = true -> notAfter comparefn a b) ->
  filter p (JS.sort comparefn l) = filter p l.
Proof.
  intros Hp. induction l as [|a l IH]; simpl; [reflexivity|].
  destruct (p a) eqn:Ha.
  - rewrite insert_filter_kept; auto. now rewrite IH.
  - rewrite insert_filter_dropped; auto.
Qed.

Hypothesis comparefn_refl : forall a, comparefn a a = 0%Z.
Hypothesis comparefn_flip :
  forall a b, (0 < comparefn a b)%Z <-> (comparefn b a < 0)%Z.
Hypothesis comparefn_trans :
  forall a b c,
    notAfter comparefn a b -> notAfter comparefn b c -> notAfter comparefn a c.

Lemma tied_notAfter (x a b : A) :
  tied comparefn x a = true -> tied comparefn x b = true ->
  notAfter comparefn a b.
Proof.
  unfold tied. rewrite !Z.eqb_eq. intros Ha Hb.
  apply comparefn_trans with x; unfold notAfter; [|lia].
  destruct (Z_lt_le_dec 0 (comparefn a x)) as [H|H]; [|exact H].
  apply comparefn_flip in H. lia.
Qed.

Lemma insert_sorted (a : A) (l : list A) :
  StronglySorted (notAfter comparefn) l ->
  StronglySorted (notAfter comparefn) (JS.insert comparefn a l).
Proof.
  induction 1 as [|b l Hl IH Hb]; simpl.
  - repeat constructor.
  - destruct (comparefn a b <=? 0)%Z eqn:E.
    + apply Z.leb_le in E. constructor; [now constructor|].
      constructor; [exact E|].
      eapply Forall_impl; [|exact Hb].
      intros c Hc. now apply comparefn_trans with b.
    + apply Z.leb_gt in E. constructor; [exact IH|].
      eapply Permutation_Forall; [apply insert_permutation|].
      constructor; [|exact Hb].
      apply comparefn_flip in E. unfold notAfter. lia.
Qed.

Lemma sort_sorted (l : list A) :
  StronglySorted (notAfter comparefn) (JS.sort comparefn l).
Proof.
  induction l as [|a l IH]; simpl; [constructor|].
  now apply insert_sorted.
Qed.

(** Ties keep their input order. *)
Lemma sort_stable (x : A) (l : list A) :
  filter (tied comparefn x) (JS.sort comparefn l) = filter (tied comparefn x) l.
Proof.
  apply sort_filter. intros a b. apply tied_notAfter.
Qed.

(** An ascending sequence is determined by the order of its ties. *)
Lemma sorted_stable_unique (l1 : list A) :
  forall l2,
    StronglySorted (notAfter comparefn) l1 ->
    StronglySorted (notAfter comparefn) l2 ->
    (forall x, filter (tied comparefn x) l1 = filter (tied comparefn x) l2) ->
    l1 = l2.
Proof.
  assert (Hself : forall a, tied comparefn a a = true).
  { intros a. unfold tied. now rewrite comparefn_refl. }
  induction l1 as [|a l1 IH]; intros l2 H1 H2 Hties.
  - destruct l2 as [|b l2]; [reflexivity|].
    specialize (Hties b). simpl in Hties. now rewrite Hself in Hties.
  - destruct l2 as [|b l2].
    { specialize (Hties a). simpl in Hties. now rewrite Hself in Hties. }
    inversion H1 as [|? ? H1' Ha]; subst.
    inversion H2 as [|? ? H2' Hb]; subst.
    assert (Hab : notAfter comparefn a b).
    { assert (Hin : In b (a :: l1)).
      { eapply (proj1 (filter_In (tied comparefn b) b (a :: l1))).
        rewrite (Hties b). simpl. rewrite Hself. now left. }
      destruct Hin as [->|Hin].
      - unfold notAfter. now rewrite comparefn_refl.
      - rewrite Forall_forall in Ha. now apply Ha. }
    assert (Hba : notAfter comparefn b a).
    { assert (Hin : In a (b :: l2)).
      { eapply (proj1 (filter_In (tied comparefn a) a (b :: l2))).
        rewrite <- (Hties a). simpl. rewrite Hself. now left. }
      destruct Hin as [->|Hin].
      - unfold notAfter. now rewrite comparefn_refl.
      - rewrite Forall_forall in Hb. now apply Hb. }
    assert (Htie : tied comparefn a b = true).
    { unfold tied, notAfter in *. apply Z.eqb_eq.
      destruct (Z_lt_le_dec (comparefn a b) 0) as [H|H]; [|lia].
      apply comparefn_flip in H. lia. }
    assert (a = b) as <-.
    { specialize (Hties a). simpl in Hties.
      rewrite Hself, Htie in Hties. congruence. }
    f_equal. apply IH; auto.
    intros x. specialize (Hties x). simpl in Hties.
    destruct (tied comparefn x a); congruence.
Qed.

End SortFacts.

(** *** The model collation is a consistent comparator *)

Lemma lexCompare_refl (u : list N) : Collation.lexCompare u u = Eq.
Proof.
  induction u as [|a u IH]; simpl; [reflexivity|].
  now rewrite N.compare_refl.
Qed.

Lemma lexCompare_eq (u : list N) :
  forall v, Collation.lexCompare u v = Eq -> u = v.
Proof.
  induction u as [|a u IH]; intros [|b v]; simpl; try discriminate; auto.
  destruct (N.compare_spec a b) as [->| |]; try discriminate.
  intros Huv. f_equal. now apply IH.
Qed.

Lemma lexCompare_antisym (u : list N) :
  forall v, Collation.lexCompare v u = CompOpp (Collation.lexCompare u v).
Proof.
  induction u as [|a u IH]; intros [|b v]; simpl; auto.
  rewrite (N.compare_antisym a b).
  destruct (a ?= b)%N; simpl; auto.
Qed.

Lemma lexCompare_le_trans (u : list N) :
  forall v w,
    Collation.lexCompare u v <> Gt -> Collation.lexCompare v w <> Gt ->
    Collation.lexCompare u w <> Gt.
Proof.
  induction u as [|a u IH]; intros [|b v] [|c w]; simpl;
    try congruence.
  destruct (N.compare_spec a b) as [Hab|Hab|Hab];
    destruct (N.compare_spec b c) as [Hbc|Hbc|Hbc]; try congruence;
    intros Huv Hvw.
  - subst. rewrite N.compare_refl. now apply IH with v.
  - assert (Hac : (a ?= c)%N = Lt) by (apply N.compare_lt_iff; lia).
    rewrite Hac. discriminate.
  - assert (Hac : (a ?= c)%N = Lt) by (apply N.compare_lt_iff; lia).
    rewrite Hac. discriminate.
  - assert (Hac : (a ?= c)%N = Lt) by (apply N.compare_lt_iff; lia).
    rewrite Hac. discriminate.
Qed.

Lemma collation_compare_antisym (a b : string) :
  Collation.compare b a = CompOpp (Collation.compare a b).
Proof.
  unfold Collation.compare.
  rewrite (lexCompare_antisym (Collation.weights Collation.primary a)).
  destruct (Collation.lexCompare _ _); simpl; auto.
  apply lexCompare_antisym.
Qed.

Lemma collation_compare_le_trans (a b c : string) :
  Collation.compare a b <> Gt -> Collation.compare b c <> Gt ->
  Collation.compare a c <> Gt.
Proof.
  unfold Collation.compare.
  pose proof (lexCompare_le_trans (Collation.weights Collation.primary a)
                (Collation.weights Collation.primary b)
                (Collation.weights Collation.primary c)) as Hp.
  pose proof (lexCompare_le_trans (Collation.weights Collation.tertiary a)
                (Collation.weights Collation.tertiary b)
                (Collation.weights Collation.tertiary c)) as Ht.
  destruct (Collation.lexCompare (Collation.weights Collation.primary a)
              (Collation.weights Collation.primary b)) eqn:Eab;
    [apply lexCompare_eq in Eab; rewrite Eab in *| |congruence];
    (destruct (Collation.lexCompare (Collation.weights Collation.primary b)
                 (Collation.weights Collation.primary c)) eqn:Ebc;
     [apply lexCompare_eq in Ebc; rewrite <- ?Ebc in *| |congruence]).
  - exact Ht.
  - intros _ _. discriminate.
  - rewrite Eab. intros _ _. discriminate.
  - intros _ _.
    destruct (Collation.lexCompare (Collation.weights Collation.primary a)
                (Collation.weights Collation.primary c)) eqn:Eac.
    + apply lexCompare_eq in Eac. rewrite <- Eac in Ebc.
      rewrite lexCompare_antisym, Eab in Ebc. discriminate.
    + discriminate.
    + exfalso. apply Hp; congruence.
Qed.

Lemma collation_consistent : ConsistentComparator Collation.localeCompare.
Proof.
  split.
  - intros a. unfold Collation.localeCompare, Collation.compare.
    now rewrite !lexCompare_refl.
  - intros a b. unfold Collation.localeCompare.
    rewrite (collation_compare_antisym a b).
    destruct (Collation.compare a b); simpl; lia.
  - intros a b c. unfold Collation.localeCompare. intros Hab Hbc.
    pose proof (collation_compare_le_trans a b c) as H.
    destruct (Collation.compare a b), (Collation.compare b c),
      (Collation.compare a c); try lia; exfalso; apply H; congruence.
Qed.

(** On track names the model collation and the ordinal order agree. *)
Lemma primary_trackChar (c1 c2 : ascii) :
  trackChar c1 = true -> trackChar c2 = true ->
  (Collation.primary c1 ?= Collation.primary c2)%N = Ascii.compare c1 c2.
Proof.
  unfold trackChar, Collation.primary, Collation.isDigit, Collation.isUpper,
    Collation.isLower, Collation.between, Ascii.compare.
  generalize (N_of_ascii c1) (N_of_ascii c2). intros n1 n2.
  destruct (N.leb_spec 48 n1), (N.leb_spec n1 57), (N.leb_spec 65 n1),
    (N.leb_spec n1 90), (N.leb_spec 97 n1), (N.leb_spec n1 122);
    cbn [andb orb]; try discriminate; try lia; intros _;
    destruct (N.leb_spec 48 n2), (N.leb_spec n2 57), (N.leb_spec 65 n2),
      (N.leb_spec n2 90), (N.leb_spec 97 n2), (N.leb_spec n2 122);
    cbn [andb orb]; try discriminate; try lia; intros _;
    destruct (N.compare_spec n1 n2);
    (apply N.compare_eq_iff; lia) || (apply N.compare_lt_iff; lia)
    || (apply N.compare_gt_iff; lia).
Qed.

Lemma collation_ordinal_on_track_names (a : string) :
  forall b,
    trackName a = true -> trackName b = true ->
    Collation.localeCompare a b = ordinalCompare a b.
Proof.
  assert (Hp : forall a b,
             trackName a = true -> trackName b = true ->
             Collation.lexCompare (Collation.weights Collation.primary a)
               (Collation.weights Collation.primary b) = String.compare a b).
  { clear a. induction a as [|c1 a IH]; intros [|c2 b]; simpl; auto.
    rewrite !andb_true_iff. intros [Hc1 Ha] [Hc2 Hb].
    unfold Collation.weights in *. simpl.
    rewrite (primary_trackChar c1 c2 Hc1 Hc2).
    destruct (Ascii.compare c1 c2); auto. }
  intros b Ha Hb. unfold Collation.localeCompare, ordinalCompare.
  unfold Collation.compare. rewrite (Hp a b Ha Hb).
  destruct (String.compare a b) eqn:E; auto.
  apply String.compare_eq_iff in E. subst. now rewrite lexCompare_refl.
Qed.

(** *** The ordering resolver *)

Section LayerOrderingFacts.

Variable localeCompare : string -> string -> Z.
Hypothesis consistent : ConsistentComparator localeCompare.

Lemma compareLayers_refl (a : ClipLayer.t) :
  compareLayers localeCompare a a = 0%Z.
Proof. apply (cmp_refl _ consistent). Qed.

Lemma compareLayers_flip (a b : ClipLayer.t) :
  (0 < compareLayers localeCompare a b)%Z <->
  (compareLayers localeCompare b a < 0)%Z.
Proof. apply (cmp_flip _ consistent). Qed.

Lemma compareLayers_trans (a b c : ClipLayer.t) :
  notAfter (compareLayers localeCompare) a b ->
  notAfter (compareLayers localeCompare) b c ->
  notAfter (compareLayers localeCompare) a c.
Proof. apply (cmp_trans _ consistent). Qed.

(** C1, amended.  For a consistent host collation [localeCompare], the
    ordering resolver returns a rearrangement of its input that ascends by
    [trackId] under that collation, with the layers of one [trackId] in
    their input order; this output is the only ascending sequence that keeps
    ties in input order, so every run on the same input yields it, and
    running the resolver on its own output changes nothing. *)
Theorem sortedLayers_stable_by_collation (layers : list ClipLayer.t) :
  let out := sortedLayers localeCompare layers in
  Permutation layers out
  /\ StronglySorted
       (fun a b =>
          (localeCompare (ClipLayer.trackId a) (ClipLayer.trackId b) <= 0)%Z)
       out
  /\ (forall k,
        filter (fun l => ClipLayer.trackId l =? k) out =
        filter (fun l => ClipLayer.trackId l =? k) layers)
  /\ (forall out',
        StronglySorted (notAfter (compareLayers localeCompare)) out' ->
        (forall x,
            filter (tied (compareLayers localeCompare) x) out' =
            filter (tied (compareLayers localeCompare) x) layers) ->
        out' = out)
  /\ sortedLayers localeCompare out = out.
Proof.
  intros out. unfold out, sortedLayers.
  pose proof compareLayers_refl as Hr.
  pose proof compareLayers_flip as Hf.
  pose proof compareLayers_trans as Ht.
  split; [apply sort_permutation|].
  split; [exact (sort_sorted _ Hf Ht layers)|].
  split; [|split].
  - intros k. apply sort_filter. intros a b Ha Hb.
    apply String.eqb_eq in Ha, Hb. unfold notAfter, compareLayers.
    rewrite Ha, Hb, (cmp_refl _ consistent). lia.
  - intros out' Hsorted Hties.
    eapply sorted_stable_unique; eauto using sort_sorted.
    intros x. rewrite Hties. symmetry. eauto using sort_stable.
  - eapply sorted_stable_unique; eauto using sort_sorted, sort_stable.
Qed.

End LayerOrderingFacts.

(** The scenario of the specification under the model collation: the
    overlay on "V2" is painted after the video on "V1". *)
Lemma sortedLayers_stable_by_collation_witness :
  sortedLayers Collation.localeCompare [scenarioB; scenarioA] =
    [scenarioA; scenarioB]
  /\ Permutation [scenarioB; scenarioA]
       (sortedLayers Collation.localeCompare [scenarioB; scenarioA]).
Proof.
  split; [reflexivity|].
  exact (proj1 (sortedLayers_stable_by_collation Collation.localeCompare
                  collation_consistent [scenarioB; scenarioA])).
Defined.

(** Whatever else the host collation does, once it does not put "a" after
    "B" the two overlays stay in that order, against the ordinal order. *)
Lemma lower_before_upper_not_ordinal (localeCompare : string -> string -> Z) :
  (localeCompare "a" "B" <= 0)%Z ->
  sortedLayers localeCompare [overlayLower; overlayUpper] =
    [overlayLower; overlayUpper]
  /\ ~ StronglySorted (notAfter (compareLayers ordinalCompare))
        (sortedLayers localeCompare [overlayLower; overlayUpper]).
Proof.
  intros Hle. apply Z.leb_le in Hle.
  assert (Hout : sortedLayers localeCompare [overlayLower; overlayUpper] =
                 [overlayLower; overlayUpper]).
  { unfold sortedLayers, compareLayers. simpl. now rewrite Hle. }
  split; [exact Hout|]. rewrite Hout.
  intros H. inversion H as [|a l _ Hall]; subst.
  inversion Hall as [|b l' Hab _]; subst.
  vm_compute in Hab. now apply Hab.
Qed.

(** C1 as stated fails: a collation puts "a" before "B", the ordinal
    comparison puts "B" (code 66) before "a" (code 97), so the output for
    these two track identifiers does not ascend in the ordinal order. *)
Lemma sortedLayers_not_ordinal :
  sortedLayers Collation.localeCompare [overlayLower; overlayUpper] =
    [overlayLower; overlayUpper]
  /\ ordinalCompare (ClipLayer.trackId overlayLower)
       (ClipLayer.trackId overlayUpper) = 1%Z
  /\ ~ StronglySorted
         (fun a b =>
            (ordinalCompare (ClipLayer.trackId a) (ClipLayer.trackId b)
             <= 0)%Z)
         (sortedLayers Collation.localeCompare [overlayLower; overlayUpper]).
Proof.
  split; [reflexivity|]. split; [reflexivity|].
  intros H. inversion H as [|a l _ Hall]; subst.
  inversion Hall as [|b l' Hle _]; subst.
  vm_compute in Hle. now apply Hle.
Qed.

(** ** Drag interaction *)

Lemma hasMouseDown_overlay (layer : ClipLayer.t) :
  hasMouseDown layer = true -> (ClipLayer.trackId layer =? "V1") = false.
Proof.
  unfold hasMouseDown, isOverlay.
  destruct (ClipLayer.type layer), (ClipLayer.trackId layer =? "V1");
    simpl; congruence.
Qed.

Lemma qualifying_iff (ev : Event) :
  qualifying ev = true <->
  exists e layer,
    ev = LayerMouseDown e layer
    /\ MouseEvent.button e = 0%Z
    /\ ClipLayer.trackId layer <> "V1"
    /\ ClipLayer.type layer <> audio.
Proof.
  destruct ev as [e layer|e|e]; simpl.
  - rewrite andb_true_iff, Z.eqb_eq. unfold hasMouseDown, isOverlay. split.
    + intros [H Hb]. exists e, layer.
      destruct (String.eqb_spec (ClipLayer.trackId layer) "V1");
        destruct (ClipLayer.type layer); simpl in H;
        repeat split; congruence.
    + intros (e' & layer' & [= <- <-] & Hb & Ht & Ha).
      apply String.eqb_neq in Ht. rewrite Ht.
      destruct (ClipLayer.type layer); simpl; auto; congruence.
  - split; [discriminate|]. intros (? & ? & ? & _). discriminate.
  - split; [discriminate|]. intros (? & ? & ? & _). discriminate.
Qed.

(** The state a qualifying pointer-down leaves behind. *)
Lemma step_qualifying (props : Props.t) (st : State) (e : MouseEvent.t)
    (layer : ClipLayer.t) :
  qualifying (LayerMouseDown e layer) = true ->
  step props st (LayerMouseDown e layer) =
    (commit
       (mkState (Some (ClipLayer.id layer))
          (Some (DragStart.mk (MouseEvent.clientX e) (MouseEvent.clientY e)
                   (JS.or_default (transformX layer) 0%float)
                   (JS.or_default (transformY layer) 0%float)))
          (listeners st)),
     ([preventDefault; stopPropagation]
        ++ (if Props.onLayerSelect props
            then [onLayerSelect (ClipLayer.id layer)]
            else []))%list).
Proof.
  simpl. rewrite andb_true_iff. intros [Hm Hb].
  unfold step, handleLayerMouseDown.
  now rewrite Hm, (hasMouseDown_overlay _ Hm), Hb.
Qed.

(** A pointer-down that does not qualify changes nothing. *)
Lemma step_not_qualifying (props : Props.t) (st : State) (e : MouseEvent.t)
    (layer : ClipLayer.t) :
  qualifying (LayerMouseDown e layer) = false ->
  step props st (LayerMouseDown e layer) = (st, []).
Proof.
  simpl. unfold step, handleLayerMouseDown.
  destruct (hasMouseDown layer) eqn:Hm; [|reflexivity].
  rewrite (hasMouseDown_overlay _ Hm). simpl. now intros ->.
Qed.

Lemma step_base_track (props : Props.t) (st : State) (e : MouseEvent.t)
    (layer : ClipLayer.t) :
  ClipLayer.trackId layer = "V1" ->
  step props st (LayerMouseDown e layer) = (st, []).
Proof.
  intros Ht. apply step_not_qualifying. simpl.
  unfold hasMouseDown, isOverlay. rewrite Ht. simpl.
  now destruct (ClipLayer.type layer).
Qed.

(** While the listeners stay registered, each pointer-move is answered by
    the move handler and leaves the state as it is. *)
Lemma run_moves (props : Props.t) (st : State) (l : Listeners.t)
    (es : list MouseEvent.t) :
  listeners st = Some l ->
  run props st (List.map WindowMouseMove es) =
    (st, List.flat_map (handleMouseMove props l) es).
Proof.
  intros Hl. induction es as [|e es IH]; simpl; [reflexivity|].
  now rewrite Hl, IH.
Qed.

Lemma run_app (props : Props.t) (evs1 evs2 : list Event) (st : State) :
  run props st (evs1 ++ evs2) =
    let (st1, out1) := run props st evs1 in
    let (st2, out2) := run props st1 evs2 in
    (st2, (out1 ++ out2)%list).
Proof.
  revert st. induction evs1 as [|ev evs1 IH]; intros st; simpl.
  - now destruct (run props st evs2).
  - destruct (step props st ev) as [st1 out1]. rewrite IH.
    destruct (run props st1 evs1) as [st2 out2].
    destruct (run props st2 evs2) as [st3 out3].
    now rewrite app_assoc.
Qed.

Lemma truthy_string_iff (s : string) : JS.truthy_string s = true <-> s <> "".
Proof.
  unfold JS.truthy_string. rewrite negb_true_iff. apply String.eqb_neq.
Qed.

(** A qualifying pointer-down on a layer with a non-empty id registers the
    window listeners, closed over the layer id and the two origins. *)
Lemma step_qualifying_listeners (props : Props.t) (st : State)
    (e : MouseEvent.t) (layer : ClipLayer.t) :
  qualifying (LayerMouseDown e layer) = true ->
  ClipLayer.id layer <> "" ->
  listeners (fst (step props st (LayerMouseDown e layer))) =
    Some (Listeners.mk (ClipLayer.id layer)
            (DragStart.mk (MouseEvent.clientX e) (MouseEvent.clientY e)
               (JS.or_default (transformX layer) 0%float)
               (JS.or_default (transformY layer) 0%float))).
Proof.
  intros Hq Hid. rewrite (step_qualifying props st e layer Hq). simpl.
  unfold dragEffect. simpl.
  apply truthy_string_iff in Hid. now rewrite Hid.
Qed.

(** The listeners a qualifying pointer-down leaves registered are there
    exactly when the layer id is a non-empty string. *)
Lemma step_qualifying_active (props : Props.t) (st : State)
    (e : MouseEvent.t) (layer : ClipLayer.t) :
  qualifying (LayerMouseDown e layer) = true ->
  (listeners (fst (step props st (LayerMouseDown e layer))) <> None <->
   ClipLayer.id layer <> "").
Proof.
  intros Hq. rewrite (step_qualifying props st e layer Hq). simpl.
  unfold dragEffect. simpl. rewrite <- truthy_string_iff.
  destruct (JS.truthy_string (ClipLayer.id layer)); split; congruence.
Qed.

(** C5. While the session started by a qualifying pointer-down is active
    (its window listeners are registered), every pointer-move produces
    exactly one [onLayerMove] request, in arrival order, for the layer of
    the pointer-down, at the layer origin plus the pointer's displacement
    from the pointer origin; the moves do not change the session.  The
    pointer origin is the client position of the pointer-down; the layer
    origin is the [x] and [y] of the layer's transform at that time, 0 for
    an absent transform or an absent (or falsy) field.  Both origins are
    what the session recorded at the pointer-down. *)
Theorem drag_move_requests (props : Props.t) (st : State)
    (down : MouseEvent.t) (layer : ClipLayer.t)
    (pointerMoves : list MouseEvent.t) :
  Props.onLayerMove props = true ->
  qualifying (LayerMouseDown down layer) = true ->
  listeners (fst (step props st (LayerMouseDown down layer))) <> None ->
  let started := fst (step props st (LayerMouseDown down layer)) in
  let layerOriginX :=
    match ClipLayer.transform layer with
    | Some t =>
        match ClipTransform.x t with
        | Some v => if JS.truthy v then v else 0%float
        | None => 0%float
        end
    | None => 0%float
    end in
  let layerOriginY :=
    match ClipLayer.transform layer with
    | Some t =>
        match ClipTransform.y t with
        | Some v => if JS.truthy v then v else 0%float
        | None => 0%float
        end
    | None => 0%float
    end in
  run props started (List.map WindowMouseMove pointerMoves) =
    (started,
     List.map
       (fun e =>
          onLayerMove (ClipLayer.id layer)
            (PrimFloat.add layerOriginX
               (PrimFloat.sub (MouseEvent.clientX e)
                  (MouseEvent.clientX down)))
            (PrimFloat.add layerOriginY
               (PrimFloat.sub (MouseEvent.clientY e)
                  (MouseEvent.clientY down))))
       pointerMoves)
  /\ draggingLayer started = Some (ClipLayer.id layer)
  /\ dragStart started =
       Some (DragStart.mk (MouseEvent.clientX down) (MouseEvent.clientY down)
               layerOriginX layerOriginY).
Proof.
  intros Hmove Hq Hactive started layerOriginX layerOriginY.
  apply (step_qualifying_active props st down layer Hq) in Hactive.
  assert (Hx : JS.or_default (transformX layer) 0%float = layerOriginX).
  { unfold layerOriginX, transformX.
    destruct (ClipLayer.transform layer) as [t|]; [|reflexivity].
    now destruct (ClipTransform.x t). }
  assert (Hy : JS.or_default (transformY layer) 0%float = layerOriginY).
  { unfold layerOriginY, transformY.
    destruct (ClipLayer.transform layer) as [t|]; [|reflexivity].
    now destruct (ClipTransform.y t). }
  split; [|split].
  - rewrite (run_moves props started _ pointerMoves
               (step_qualifying_listeners props st down layer Hq Hactive)).
    f_equal. unfold handleMouseMove. rewrite Hmove. simpl.
    rewrite Hx, Hy.
    induction pointerMoves as [|e es IH]; simpl; [reflexivity|].
    now rewrite IH.
  - unfold started. now rewrite (step_qualifying props st down layer Hq).
  - unfold started. rewrite (step_qualifying props st down layer Hq).
    simpl. now rewrite Hx, Hy.
Qed.

(** A layer placed at (30, 40) is grabbed at (100, 100) and the pointer
    moves to (120, 115) and then to (90, 130): the requests are for
    (50, 55) and then (20, 70). *)
Lemma drag_move_requests_witness :
  snd (run scenarioProps
         (fst (step scenarioProps initialState
                 (LayerMouseDown pointerDown overlayPlaced)))
         [WindowMouseMove pointerMove;
          WindowMouseMove (MouseEvent.mk 0 90%float 130%float)]) =
    [onLayerMove "P" 50%float 55%float; onLayerMove "P" 20%float 70%float].
Proof.
  assert (Hq : qualifying (LayerMouseDown pointerDown overlayPlaced) = true)
    by reflexivity.
  assert (Hactive : listeners
                      (fst (step scenarioProps initialState
                              (LayerMouseDown pointerDown overlayPlaced)))
                    <> None) by discriminate.
  exact (f_equal snd
           (proj1 (drag_move_requests scenarioProps initialState pointerDown
                     overlayPlaced
                     [pointerMove; MouseEvent.mk 0 90%float 130%float]
                     eq_refl Hq Hactive))).
Defined.

Lemma selects_handleMouseMove (props : Props.t) (l : Listeners.t)
    (e : MouseEvent.t) :
  selects (handleMouseMove props l e) = [].
Proof.
  unfold handleMouseMove. now destruct (Props.onLayerMove props).
Qed.

(** What one event does to the session cells. *)
Lemma step_session (props : Props.t) (st : State) (ev : Event) :
  if qualifying ev
  then exists e layer,
      ev = LayerMouseDown e layer
      /\ MouseEvent.button e = 0%Z
      /\ ClipLayer.trackId layer <> "V1"
      /\ draggingLayer (fst (step props st ev)) = Some (ClipLayer.id layer)
      /\ dragStart (fst (step props st ev)) =
           Some (DragStart.mk (MouseEvent.clientX e) (MouseEvent.clientY e)
                   (JS.or_default (transformX layer) 0%float)
                   (JS.or_default (transformY layer) 0%float))
      /\ snd (step props st ev) =
           ([preventDefault; stopPropagation]
              ++ (if Props.onLayerSelect props
                  then [onLayerSelect (ClipLayer.id layer)]
                  else []))%list
  else selects (snd (step props st ev)) = []
       /\ ((draggingLayer (fst (step props st ev)) = draggingLayer st
            /\ dragStart (fst (step props st ev)) = dragStart st)
           \/ (draggingLayer (fst (step props st ev)) = None
               /\ dragStart (fst (step props st ev)) = None)).
Proof.
  destruct (qualifying ev) eqn:Hq.
  - destruct (proj1 (qualifying_iff ev) Hq) as (e & layer & -> & Hb & Ht & _).
    exists e, layer. rewrite (step_qualifying props st e layer Hq). simpl.
    repeat split; auto.
  - destruct ev as [e layer|e|e].
    + rewrite (step_not_qualifying props st e layer Hq). simpl. auto.
    + simpl. destruct (listeners st) as [l|]; simpl;
        rewrite ?selects_handleMouseMove; auto.
    + simpl. destruct (listeners st) as [l|]; simpl; auto.
Qed.

(** A session found after a run was started by a qualifying pointer-down of
    that run, unless the run began with it. *)
Lemma run_session_origin (props : Props.t) (evs : list Event) :
  forall st layerId,
    draggingLayer (fst (run props st evs)) = Some layerId ->
    draggingLayer st = Some layerId
    \/ exists e layer,
        In (LayerMouseDown e layer) evs
        /\ MouseEvent.button e = 0%Z
        /\ ClipLayer.trackId layer <> "V1"
        /\ ClipLayer.id layer = layerId.
Proof.
  induction evs as [|ev evs IH]; intros st layerId; simpl; [auto|].
  pose proof (step_session props st ev) as Hstep.
  destruct (step props st ev) as [st1 out1].
  specialize (IH st1 layerId).
  destruct (run props st1 evs) as [st2 out2]. simpl in *.
  intros Hfinal. destruct (IH Hfinal) as [H1|(e & layer & Hin & Hrest)].
  - destruct (qualifying ev).
    + destruct Hstep as (e & layer & -> & Hb & Ht & Hd & _).
      right. exists e, layer. repeat split; auto; congruence.
    + destruct Hstep as (_ & [[Hd _]|[Hd _]]); [left|]; congruence.
  - right. exists e, layer. auto.
Qed.

(** C6. With [onLayerSelect] passed: an event that starts a session is a
    primary-button pointer-down on a layer off track "V1", and it sets the
    session to that layer's id, emits exactly one [onLayerSelect] for it and
    no move request; every other event emits no select and either leaves
    the session cells alone or clears them.  Hence the layer id of any
    session reached from the initial state is the id of a layer off track
    "V1" that received a primary-button pointer-down.  A pointer-down on a
    layer of track "V1" changes no state and emits nothing. *)
Theorem drag_session_start (props : Props.t) :
  Props.onLayerSelect props = true ->
  (forall st ev,
      if qualifying ev
      then exists e layer,
          ev = LayerMouseDown e layer
          /\ MouseEvent.button e = 0%Z
          /\ ClipLayer.trackId layer <> "V1"
          /\ draggingLayer (fst (step props st ev)) = Some (ClipLayer.id layer)
          /\ selects (snd (step props st ev)) = [ClipLayer.id layer]
          /\ moves (snd (step props st ev)) = []
      else selects (snd (step props st ev)) = []
           /\ ((draggingLayer (fst (step props st ev)) = draggingLayer st
                /\ dragStart (fst (step props st ev)) = dragStart st)
               \/ (draggingLayer (fst (step props st ev)) = None
                   /\ dragStart (fst (step props st ev)) = None)))
  /\ (forall evs layerId,
        draggingLayer (fst (run props initialState evs)) = Some layerId ->
        exists e layer,
          In (LayerMouseDown e layer) evs
          /\ MouseEvent.button e = 0%Z
          /\ ClipLayer.trackId layer <> "V1"
          /\ ClipLayer.id layer = layerId)
  /\ (forall st e layer,
        ClipLayer.trackId layer = "V1" ->
        handleLayerMouseDown props e layer = None
        /\ step props st (LayerMouseDown e layer) = (st, [])).
Proof.
  intros Hselect. split; [|split].
  - intros st ev. pose proof (step_session props st ev) as Hstep.
    destruct (qualifying ev); [|exact Hstep].
    destruct Hstep as (e & layer & Hev & Hb & Ht & Hd & _ & Hout).
    exists e, layer. rewrite Hout, Hselect. auto 10.
  - intros evs layerId Hfinal.
    destruct (run_session_origin props evs initialState layerId Hfinal)
      as [H|H]; [discriminate H|exact H].
  - intros st e layer Ht. split; [|now apply step_base_track].
    unfold handleLayerMouseDown. now rewrite Ht.
Qed.

(** The scenario's pointer-down on layer B starts a session for B and
    selects B once; the same pointer-down on layer A, on the base track,
    does nothing. *)
Lemma drag_session_start_witness :
  selects (snd (step scenarioProps initialState
                  (LayerMouseDown pointerDown scenarioB))) = ["B"]
  /\ step scenarioProps initialState (LayerMouseDown pointerDown scenarioA) =
       (initialState, []).
Proof.
  pose proof (drag_session_start scenarioProps eq_refl) as (Hstep & _ & Hbase).
  split.
  - destruct (Hstep initialState (LayerMouseDown pointerDown scenarioB))
      as (e & layer & Hev & _ & _ & _ & Hsel & _).
    injection Hev as <- <-. exact Hsel.
  - apply Hbase. reflexivity.
Defined.

Lemma dragEffect_commit (st : State) : dragEffect (commit st) = dragEffect st.
Proof. reflexivity. Qed.

(** After every event the registered listeners are those of the drag effect
    on the current state cells. *)
Lemma step_committed (props : Props.t) (st : State) (ev : Event) :
  listeners st = dragEffect st ->
  listeners (fst (step props st ev)) = dragEffect (fst (step props st ev)).
Proof.
  intros Hst. destruct ev as [e layer|e|e]; simpl.
  - destruct (hasMouseDown layer); [|exact Hst].
    destruct (handleLayerMouseDown props e layer) as [update|]; [|exact Hst].
    now destruct (update st).
  - destruct (listeners st) eqn:E; simpl; congruence.
  - destruct (listeners st) eqn:E; simpl; [reflexivity | congruence].
Qed.

Lemma run_committed (props : Props.t) (evs : list Event) :
  forall st,
    listeners st = dragEffect st ->
    listeners (fst (run props st evs)) = dragEffect (fst (run props st evs)).
Proof.
  induction evs as [|ev evs IH]; intros st Hst; simpl; [exact Hst|].
  pose proof (step_committed props st ev Hst) as Hstep.
  destruct (step props st ev) as [st1 out1].
  specialize (IH st1 Hstep).
  now destruct (run props st1 evs).
Qed.

(** Without listeners, an event other than a qualifying pointer-down finds
    no handler that acts. *)
Lemma step_idle (props : Props.t) (st : State) (ev : Event) :
  listeners st = None -> qualifying ev = false ->
  step props st ev = (st, []).
Proof.
  intros Hl Hq. destruct ev as [e layer|e|e].
  - now apply step_not_qualifying.
  - simpl. now rewrite Hl.
  - simpl. now rewrite Hl.
Qed.

Lemma run_idle (props : Props.t) (st : State) (evs : list Event) :
  listeners st = None ->
  Forall (fun ev => qualifying ev = false) evs ->
  run props st evs = (st, []).
Proof.
  intros Hl Hevs. induction Hevs as [|ev evs Hq _ IH]; simpl; [reflexivity|].
  now rewrite (step_idle props st ev Hl Hq), IH.
Qed.

(** C9. While the window listeners are registered, a pointer-up, whatever
    its button and position, clears both session cells and removes the
    listeners; in particular it ends the session a qualifying pointer-down
    started.  In every state reached from the initial one the listeners are
    exactly those the drag effect registers for the current cells, so they
    are registered only while both cells are set.  After a pointer-up the
    listeners are gone, and until a qualifying pointer-down arrives no event
    changes the state or emits anything, so no position-update request is
    emitted. *)
Theorem pointer_up_ends_session (props : Props.t) :
  (forall st e,
      listeners st <> None ->
      step props st (WindowMouseUp e) = (initialState, []))
  /\ (forall st down layer e,
        qualifying (LayerMouseDown down layer) = true ->
        ClipLayer.id layer <> "" ->
        step props (fst (step props st (LayerMouseDown down layer)))
          (WindowMouseUp e) = (initialState, []))
  /\ (forall evs,
        listeners (fst (run props initialState evs)) =
        dragEffect (fst (run props initialState evs)))
  /\ (forall evs,
        listeners (fst (run props initialState evs)) <> None ->
        draggingLayer (fst (run props initialState evs)) <> None
        /\ dragStart (fst (run props initialState evs)) <> None)
  /\ (forall st e evs,
        Forall (fun ev => qualifying ev = false) evs ->
        listeners (fst (step props st (WindowMouseUp e))) = None
        /\ run props (fst (step props st (WindowMouseUp e))) evs =
             (fst (step props st (WindowMouseUp e)), [])
        /\ moves (snd (run props (fst (step props st (WindowMouseUp e))) evs))
           = []).
Proof.
  assert (Hup : forall st e,
             listeners st <> None ->
             step props st (WindowMouseUp e) = (initialState, [])).
  { intros st e Hl. simpl. now destruct (listeners st). }
  split; [exact Hup|]. split; [|split; [|split]].
  - intros st down layer e Hq Hid. apply Hup.
    now rewrite (step_qualifying_listeners props st down layer Hq Hid).
  - intros evs. now apply run_committed.
  - intros evs. rewrite (run_committed props evs initialState eq_refl).
    unfold dragEffect.
    destruct (draggingLayer _), (dragStart _); simpl; split; congruence.
  - intros st e evs Hevs.
    assert (Hl : listeners (fst (step props st (WindowMouseUp e))) = None).
    { simpl. now destruct (listeners st) eqn:E. }
    split; [exact Hl|].
    rewrite (run_idle props _ evs Hl Hevs). auto.
Qed.

(** The scenario's gesture ends with a secondary button released elsewhere:
    the session is cleared, and the next pointer-move requests nothing. *)
Lemma pointer_up_ends_session_witness :
  step scenarioProps
    (fst (step scenarioProps initialState
            (LayerMouseDown pointerDown scenarioB)))
    (WindowMouseUp pointerUp) = (initialState, [])
  /\ moves (snd (run scenarioProps
                   (fst (step scenarioProps
                           (fst (step scenarioProps initialState
                                   (LayerMouseDown pointerDown scenarioB)))
                           (WindowMouseUp pointerUp)))
                   [WindowMouseMove pointerMove])) = [].
Proof.
  pose proof (pointer_up_ends_session scenarioProps)
    as (Hup & _ & _ & _ & Hafter).
  split.
  - apply Hup. discriminate.
  - apply Hafter. repeat constructor.
Defined.

(** ** Render *)

Section RenderFacts.

Variable numberToString : JS.number -> string.
Variable localeCompare : string -> string -> Z.

Lemma unmuted_map_from (props : Props.t) (st : State)
    (l : list ClipLayer.t) :
  forall i,
    List.map VideoElement.key
      (unmuted (JS.map_from i (renderLayer numberToString props st) l)) =
    List.map ClipLayer.id (filter isBaseVideo l).
Proof.
  induction l as [|layer l IH]; intros i; simpl; [reflexivity|].
  unfold unmuted in *. simpl. rewrite map_app, IH.
  unfold renderLayer, isBaseVideo.
  destruct (ClipLayer.type layer), (ClipLayer.trackId layer =? "V1");
    reflexivity.
Qed.

(** The video elements rendered unmuted are those of the layers on track
    "V1" of kind video, all of them, in paint order. *)
Lemma unmuted_renderLayers (props : Props.t) (st : State) :
  List.map VideoElement.key
    (unmuted (renderLayers numberToString localeCompare props st)) =
  List.map ClipLayer.id
    (filter isBaseVideo (sortedLayers localeCompare (Props.layers props))).
Proof. apply unmuted_map_from. Qed.

(** Under a collation that ties a string with itself, the unmuted video
    elements are the videos of track "V1" in input order; with at most one
    of them in the layer set, that is the base layer alone. *)
Lemma unmuted_base_track_videos (props : Props.t) (st : State) :
  (forall a, localeCompare a a = 0%Z) ->
  List.map VideoElement.key
    (unmuted (renderLayers numberToString localeCompare props st)) =
  List.map ClipLayer.id (filter isBaseVideo (Props.layers props)).
Proof.
  intros Hrefl. rewrite unmuted_renderLayers. f_equal.
  apply sort_filter. intros a b Ha Hb.
  apply isBaseVideo_iff in Ha, Hb. unfold notAfter, compareLayers.
  rewrite (proj1 Ha), (proj1 Hb), Hrefl. lia.
Qed.

(** C10 at two videos on the base track.  The base layer is the first one,
    A; the second one, A2, is a video layer that is not the base layer, and
    both are rendered unmuted, so two video elements can produce audio. *)
Theorem render_unmutes_every_base_track_video (st : State) :
  baseVideoLayer (Props.layers twoBaseProps) = Some scenarioA
  /\ Permutation
       (List.map VideoElement.key
          (unmuted (renderLayers numberToString localeCompare twoBaseProps st)))
       ["A"; "A2"]
  /\ List.length
       (unmuted (renderLayers numberToString localeCompare twoBaseProps st))
     = 2%nat.
Proof.
  split; [reflexivity|].
  assert (Hkeys : Permutation
            (List.map VideoElement.key
               (unmuted
                  (renderLayers numberToString localeCompare twoBaseProps st)))
            ["A"; "A2"]).
  { rewrite unmuted_renderLayers. simpl. unfold sortedLayers. simpl.
    destruct (compareLayers localeCompare scenarioA scenarioA2 <=? 0)%Z;
      simpl; [reflexivity | apply perm_swap]. }
  split; [exact Hkeys|].
  apply Permutation_length in Hkeys. now rewrite length_map in Hkeys.
Qed.

End RenderFacts.

(** * Further properties *)

(** ** Transform resolver: which inputs are told apart *)

Section TransformResolverEquivalences.

Variable numberToString : JS.number -> string.

(** Reduce the projections of a transform built by its constructor. *)
Ltac project_transform :=
  cbn [ClipTransform.x ClipTransform.y ClipTransform.scale
       ClipTransform.rotation ClipTransform.opacity ClipTransform.cropTop
       ClipTransform.cropBottom ClipTransform.cropLeft
       ClipTransform.cropRight].

Lemma or_default_keepTruthy (v : option JS.number) :
  JS.or_default (keepTruthy v) 0%float = JS.or_default v 0%float.
Proof.
  destruct v as [n|]; simpl; [|reflexivity].
  unfold JS.or. destruct (JS.truthy n) eqn:E; simpl; [|reflexivity].
  unfold JS.or. now rewrite E.
Qed.

Lemma truthy_opt_keepTruthy (v : option JS.number) :
  JS.truthy_opt (keepTruthy v) = JS.truthy_opt v.
Proof.
  destruct v as [n|]; simpl; [|reflexivity].
  destruct (JS.truthy n) eqn:E; simpl; auto.
Qed.

Lemma or_default_nullish_zero (v : option JS.number) :
  JS.or_default (Some (JS.nullish v 0%float)) 0%float =
  JS.or_default v 0%float.
Proof. now destruct v. Qed.

Lemma truthy_opt_nullish_zero (v : option JS.number) :
  JS.truthy_opt (Some (JS.nullish v 0%float)) = JS.truthy_opt v.
Proof. now destruct v. Qed.

(** X1. An absent field and a field holding its default value resolve to the
    same style: 0 for the position, the rotation and the crops, 1 for the
    scale and the opacity. *)
Theorem getTransformStyles_defaults (t : ClipTransform.t) zIndex isDragging :
  getTransformStyles numberToString (Some (withDefaults t)) zIndex isDragging =
  getTransformStyles numberToString (Some t) zIndex isDragging.
Proof.
  assert (Htr : transforms numberToString (withDefaults t) =
                transforms numberToString t).
  { rewrite !transforms_parts. unfold withDefaults. project_transform.
    rewrite !truthy_opt_nullish_zero, !or_default_nullish_zero.
    now destruct (ClipTransform.scale t), (ClipTransform.rotation t). }
  assert (Hclip : clipPathOf numberToString (withDefaults t) =
                  clipPathOf numberToString t).
  { unfold clipPathOf. rewrite !has_clip_truthy.
    unfold withDefaults. project_transform.
    now rewrite !truthy_opt_nullish_zero, !or_default_nullish_zero. }
  unfold getTransformStyles. rewrite Htr, Hclip.
  f_equal; unfold withDefaults; project_transform;
    now destruct (ClipTransform.opacity t).
Qed.

(** X2. A position, rotation or crop field holding 0, -0 or NaN, and a scale
    holding one of these or 1, resolve like an absent field; the opacity is
    the one field whose falsy values are kept. *)
Theorem getTransformStyles_neutral (t : ClipTransform.t) zIndex isDragging :
  getTransformStyles numberToString (Some (withoutNeutral t)) zIndex
    isDragging =
  getTransformStyles numberToString (Some t) zIndex isDragging
  /\ CSSProperties.opacity
       (getTransformStyles numberToString (Some (withoutNeutral t)) zIndex
          isDragging) =
     JS.nullish (ClipTransform.opacity t) 1%float.
Proof.
  assert (Htr : transforms numberToString (withoutNeutral t) =
                transforms numberToString t).
  { rewrite !transforms_parts. unfold withoutNeutral. project_transform.
    rewrite !truthy_opt_keepTruthy, !or_default_keepTruthy.
    f_equal. f_equal.
    - destruct (ClipTransform.scale t) as [s|]; [|reflexivity].
      destruct (JS.truthy s && JS.strict_neq s 1%float) eqn:E; [|reflexivity].
      now rewrite E.
    - destruct (ClipTransform.rotation t) as [r|]; [|reflexivity].
      simpl. destruct (JS.truthy r) eqn:E; [|reflexivity]. now rewrite E. }
  assert (Hclip : clipPathOf numberToString (withoutNeutral t) =
                  clipPathOf numberToString t).
  { unfold clipPathOf. rewrite !has_clip_truthy.
    unfold withoutNeutral. project_transform.
    now rewrite !truthy_opt_keepTruthy, !or_default_keepTruthy. }
  split; [|reflexivity].
  unfold getTransformStyles. now rewrite Htr, Hclip.
Qed.

End TransformResolverEquivalences.

(** ** Clock synchronizer: which passes run the seek effect *)

(** X4. The seek effect runs in a render pass exactly when [clipTime] of the
    base layer (compared as by [Object.is], absent when there is no base
    layer) or [isPlaying] differs from the previous pass.  A pass with
    unchanged values sets no position, however far the element is from
    [clipTime]. *)
Theorem seekPass_dependencies (prev : option JS.number * bool)
    (video : option HTMLVideoElement.t) (base : option ClipLayer.t)
    (isPlaying : bool) :
  (prev = seekDeps base isPlaying ->
   seekPass (Some prev) video base isPlaying = [])
  /\ (prev <> seekDeps base isPlaying ->
      seekPass (Some prev) video base isPlaying =
      seekEffect video base isPlaying).
Proof.
  unfold seekPass.
  destruct (sameSeekDeps prev (seekDeps base isPlaying)) eqn:E.
  - apply sameSeekDeps_iff in E. split; [reflexivity | congruence].
  - split; [|reflexivity]. intros H. apply sameSeekDeps_iff in H. congruence.
Qed.

(** A paused element 95 seconds away from the base layer's [clipTime] of 5:
    the pass after an unchanged render sets nothing, the pass after
    [isPlaying] went from true to false seeks. *)
Lemma seekPass_dependencies_witness :
  seekPass (Some (Some 5%float, false))
    (Some (HTMLVideoElement.mk 100%float true)) (Some scenarioA) false = []
  /\ seekPass (Some (Some 5%float, true))
       (Some (HTMLVideoElement.mk 100%float true)) (Some scenarioA) false =
     [setCurrentTime 5%float].
Proof.
  split.
  - apply (proj1 (seekPass_dependencies (Some 5%float, false)
                    (Some (HTMLVideoElement.mk 100%float true))
                    (Some scenarioA) false)).
    reflexivity.
  - eapply eq_trans.
    + apply (proj2 (seekPass_dependencies (Some 5%float, true)
                      (Some (HTMLVideoElement.mk 100%float true))
                      (Some scenarioA) false)).
      discriminate.
    + reflexivity.
Defined.

(** ** Render: binding, wiring and keys *)

Lemma filter_nil_iff {A : Type} (p : A -> bool) (l : list A) :
  filter p l = [] <-> Forall (fun a => p a = false) l.
Proof.
  induction l as [|a l IH]; simpl.
  - split; auto.
  - destruct (p a) eqn:E.
    + split; [discriminate|]. inversion 1; congruence.
    + rewrite IH. split; [auto|]. now inversion 1.
Qed.

Lemma find_hd_filter {A : Type} (p : A -> bool) (l : list A) :
  List.find p l = List.hd_error (filter p l).
Proof.
  induction l as [|a l IH]; simpl; [reflexivity|].
  now destruct (p a).
Qed.

Section RenderBinding.

Variable numberToString : JS.number -> string.
Variable localeCompare : string -> string -> Z.

Lemma withRef_map_from (props : Props.t) (st : State)
    (l : list ClipLayer.t) :
  forall i,
    List.map VideoElement.key
      (withRef (JS.map_from i (renderLayer numberToString props st) l)) =
    List.map ClipLayer.id (filter isBaseVideo l).
Proof.
  induction l as [|layer l IH]; intros i; simpl; [reflexivity|].
  unfold withRef in *. simpl. rewrite map_app, IH.
  unfold renderLayer, isBaseVideo.
  destruct (ClipLayer.type layer), (ClipLayer.trackId layer =? "V1");
    reflexivity.
Qed.

Lemma withRef_unmuted_map_from (props : Props.t) (st : State)
    (l : list ClipLayer.t) :
  forall i,
    withRef (JS.map_from i (renderLayer numberToString props st) l) =
    unmuted (JS.map_from i (renderLayer numberToString props st) l).
Proof.
  induction l as [|layer l IH]; intros i; simpl; [reflexivity|].
  unfold withRef, unmuted in *. simpl. rewrite IH. f_equal.
  unfold renderLayer.
  destruct (ClipLayer.type layer), (isBaseVideo layer); reflexivity.
Qed.

(** X5. The video elements given [videoRef] are the unmuted ones, and there
    is none exactly when the layer set has no base layer: without a video on
    track "V1" no element is bound to the clock and every video is muted. *)
Theorem videoRef_bound_iff_base (props : Props.t) (st : State) :
  withRef (renderLayers numberToString localeCompare props st) =
    unmuted (renderLayers numberToString localeCompare props st)
  /\ (withRef (renderLayers numberToString localeCompare props st) = [] <->
      baseVideoLayer (Props.layers props) = None).
Proof.
  split; [apply withRef_unmuted_map_from|].
  pose proof (withRef_map_from props st
                (sortedLayers localeCompare (Props.layers props)) 0%float)
    as Hkeys.
  fold (JS.mapi (renderLayer numberToString props st)
          (sortedLayers localeCompare (Props.layers props))) in Hkeys.
  fold (renderLayers numberToString localeCompare props st) in Hkeys.
  unfold baseVideoLayer. rewrite find_none_all.
  transitivity (filter isBaseVideo
                  (sortedLayers localeCompare (Props.layers props)) = []).
  - split; intros H.
    + rewrite H in Hkeys. simpl in Hkeys. symmetry in Hkeys.
      now apply map_eq_nil in Hkeys.
    + rewrite H in Hkeys. simpl in Hkeys. now apply map_eq_nil in Hkeys.
  - rewrite filter_nil_iff. unfold sortedLayers.
    split; apply Permutation_Forall;
      [symmetry|]; apply sort_permutation.
Qed.

(** X6. Under a collation that ties a string with itself, the base layer of
    the ordered sequence is the base layer of the input: looking the base
    layer up before or after ordering selects the same layer. *)
Theorem baseVideoLayer_sortedLayers (layers : list ClipLayer.t) :
  (forall a, localeCompare a a = 0%Z) ->
  baseVideoLayer (sortedLayers localeCompare layers) = baseVideoLayer layers.
Proof.
  intros Hrefl. unfold baseVideoLayer. rewrite !find_hd_filter. f_equal.
  apply sort_filter. intros a b Ha Hb.
  apply isBaseVideo_iff in Ha, Hb. unfold notAfter, compareLayers.
  rewrite (proj1 Ha), (proj1 Hb), Hrefl. lia.
Qed.

(** X7. Under such a collation and with at most one video on track "V1" in
    the layer set, the element given [videoRef], which is also the only
    unmuted one, is the element of the base layer, and no element is bound
    when there is no base layer. *)
Theorem videoRef_is_base_layer (props : Props.t) (st : State) :
  (forall a, localeCompare a a = 0%Z) ->
  (List.length (filter isBaseVideo (Props.layers props)) <= 1)%nat ->
  List.map VideoElement.key
    (withRef (renderLayers numberToString localeCompare props st)) =
  match baseVideoLayer (Props.layers props) with
  | Some base => [ClipLayer.id base]
  | None => []
  end.
Proof.
  intros Hrefl Hone. unfold renderLayers, JS.mapi.
  rewrite withRef_map_from.
  assert (Hsame : filter isBaseVideo
                    (sortedLayers localeCompare (Props.layers props)) =
                  filter isBaseVideo (Props.layers props)).
  { apply sort_filter. intros a b Ha Hb.
    apply isBaseVideo_iff in Ha, Hb. unfold notAfter, compareLayers.
    rewrite (proj1 Ha), (proj1 Hb), Hrefl. lia. }
  rewrite Hsame. unfold baseVideoLayer. rewrite find_hd_filter.
  destruct (filter isBaseVideo (Props.layers props)) as [|b [|c l]];
    simpl in *; auto; lia.
Qed.

End RenderBinding.

Lemma collation_refl (a : string) : Collation.localeCompare a a = 0%Z.
Proof. apply (cmp_refl _ collation_consistent). Qed.

(** The scenario, overlay first: the base layer is A before and after
    ordering. *)
Lemma baseVideoLayer_sortedLayers_witness :
  baseVideoLayer (sortedLayers Collation.localeCompare [scenarioB; scenarioA])
  = Some scenarioA.
Proof.
  rewrite (baseVideoLayer_sortedLayers Collation.localeCompare
             [scenarioB; scenarioA] collation_refl).
  reflexivity.
Defined.

(** The scenario: only the element of layer A is given [videoRef]. *)
Lemma videoRef_is_base_layer_witness :
  List.map VideoElement.key
    (withRef (renderLayers someNumberToString Collation.localeCompare
                scenarioProps initialState)) = ["A"].
Proof.
  assert (Hone : (List.length
                    (filter isBaseVideo (Props.layers scenarioProps)) <= 1)%nat)
    by (simpl; lia).
  exact (videoRef_is_base_layer someNumberToString Collation.localeCompare
           scenarioProps initialState collation_refl Hone).
Defined.

Lemma filter_permutation {A : Type} (p : A -> bool) (l l' : list A) :
  Permutation l l' -> Permutation (filter p l) (filter p l').
Proof.
  induction 1 as [|a l l' _ IH|a b l|l l' l'' _ IH1 _ IH2]; simpl.
  - constructor.
  - destruct (p a); [now apply perm_skip | exact IH].
  - destruct (p a), (p b); try reflexivity. apply perm_swap.
  - now transitivity (filter p l').
Qed.

Lemma NoDup_map_filter {A B : Type} (f : A -> B) (p : A -> bool)
    (l : list A) :
  NoDup (List.map f l) -> NoDup (List.map f (filter p l)).
Proof.
  induction l as [|a l IH]; simpl; [auto|].
  inversion 1 as [|? ? Hnotin Hrest]; subst.
  destruct (p a); simpl; [|auto].
  constructor; [|auto].
  intros Hin. apply Hnotin. apply in_map_iff in Hin.
  destruct Hin as (b & Hb & Hin). apply in_map_iff. exists b.
  split; [exact Hb|]. now apply (incl_filter p l).
Qed.

Section RenderStructure.

Variable numberToString : JS.number -> string.
Variable localeCompare : string -> string -> Z.

Lemma map_from_length {A B : Type} (f : A -> JS.number -> B) (l : list A) :
  forall i, List.length (JS.map_from i f l) = List.length l.
Proof.
  induction l as [|a l IH]; intros i; simpl; [reflexivity|].
  now rewrite IH.
Qed.

Lemma elements_keys_map_from (props : Props.t) (st : State)
    (l : list ClipLayer.t) :
  forall i,
    List.map elementKey
      (elements (JS.map_from i (renderLayer numberToString props st) l)) =
    List.map ClipLayer.id (filter rendersElement l).
Proof.
  induction l as [|layer l IH]; intros i; simpl; [reflexivity|].
  unfold elements in *. simpl. rewrite map_app, IH.
  unfold renderLayer, rendersElement.
  destruct (ClipLayer.type layer); reflexivity.
Qed.

(** X8. The element rendered for a layer carries a pointer-down handler
    exactly when the layer is off track "V1"; an audio layer renders
    nothing.  So an element of the base track never reacts to a
    pointer-down, and through the rendered handlers [handleLayerMouseDown]
    returns early only for a button other than the primary one. *)
Theorem onMouseDown_wiring (props : Props.t) (st : State)
    (layer : ClipLayer.t) (index : JS.number) :
  match renderLayer numberToString props st layer index with
  | Some el =>
      ClipLayer.type layer <> audio
      /\ elementKey el = ClipLayer.id layer
      /\ elementOnMouseDown el = hasMouseDown layer
      /\ (elementOnMouseDown el = true <-> ClipLayer.trackId layer <> "V1")
  | None => ClipLayer.type layer = audio /\ hasMouseDown layer = false
  end
  /\ (hasMouseDown layer = true ->
      forall e,
        handleLayerMouseDown props e layer = None <->
        MouseEvent.button e <> 0%Z).
Proof.
  split.
  - unfold renderLayer, hasMouseDown, isOverlay.
    destruct (ClipLayer.type layer); simpl; auto;
      (split; [discriminate|]); (split; [reflexivity|]);
      (split; [reflexivity|]);
      rewrite negb_true_iff; apply String.eqb_neq.
  - intros Hm e. unfold handleLayerMouseDown.
    rewrite (hasMouseDown_overlay layer Hm).
    destruct (Z.eqb_spec (MouseEvent.button e) 0); simpl;
      split; congruence.
Qed.

(** X9. The keys of the rendered elements are the ids of the video and image
    layers in paint order; when the layers of the set have distinct ids, so
    have the rendered elements distinct keys. *)
Theorem render_keys_distinct (props : Props.t) (st : State) :
  NoDup (List.map ClipLayer.id (Props.layers props)) ->
  List.map elementKey
    (elements (renderLayers numberToString localeCompare props st)) =
    List.map ClipLayer.id
      (filter rendersElement
         (sortedLayers localeCompare (Props.layers props)))
  /\ NoDup
       (List.map elementKey
          (elements (renderLayers numberToString localeCompare props st))).
Proof.
  intros Hids.
  assert (Hkeys : List.map elementKey
                    (elements
                       (renderLayers numberToString localeCompare props st)) =
                  List.map ClipLayer.id
                    (filter rendersElement
                       (sortedLayers localeCompare (Props.layers props))))
    by apply elements_keys_map_from.
  split; [exact Hkeys|]. rewrite Hkeys.
  apply NoDup_map_filter.
  eapply Permutation_NoDup; [|exact Hids].
  apply Permutation_map. apply sort_permutation.
Qed.

(** X10. The placeholder is rendered exactly for the empty layer set.
    Otherwise there is one child slot per layer, the elements are as many as
    the video and image layers, the "n layers" badge is shown exactly from
    two layers on, and the play icon exactly with a base layer. *)
Theorem render_structure (props : Props.t) (st : State) :
  match render numberToString localeCompare props st with
  | EmptyState => Props.layers props = []
  | Layers c =>
      Props.layers props <> []
      /\ List.length (Composite.children c) =
         List.length (Props.layers props)
      /\ List.length (elements (Composite.children c)) =
         List.length (filter rendersElement (Props.layers props))
      /\ Composite.layerCount c =
         (if (2 <=? List.length (Props.layers props))%nat
          then Some (List.length (Props.layers props))
          else None)
      /\ (Composite.playIcon c = true <->
          exists l, In l (Props.layers props)
                    /\ ClipLayer.trackId l = "V1"
                    /\ ClipLayer.type l = video)
  end.
Proof.
  unfold render.
  destruct (Nat.eqb_spec (List.length (Props.layers props)) 0) as [E|E].
  { now apply length_zero_iff_nil. }
  cbn [Composite.children Composite.layerCount Composite.playIcon].
  split; [intros H; now rewrite H in E|].
  split; [|split; [|split]].
  - unfold renderLayers, JS.mapi. rewrite map_from_length.
    unfold sortedLayers. symmetry. apply Permutation_length.
    apply sort_permutation.
  - rewrite <- (length_map elementKey).
    unfold renderLayers, JS.mapi. rewrite elements_keys_map_from.
    rewrite length_map. symmetry. apply Permutation_length.
    apply filter_permutation. apply sort_permutation.
  - destruct (List.length (Props.layers props)) as [|[|n]]; reflexivity.
  - destruct (baseVideoLayer (Props.layers props)) as [b|] eqn:Eb.
    + split; [intros _|reflexivity].
      apply find_some in Eb. destruct Eb as [Hin Hb].
      apply isBaseVideo_iff in Hb. exists b. tauto.
    + split; [discriminate|]. intros (l & Hin & Hl).
      apply (find_none _ _ Eb) in Hin.
      apply isBaseVideo_iff in Hl. congruence.
Qed.

End RenderStructure.

(** The scenario's two layers have distinct ids, and so have their
    elements distinct keys. *)
Lemma render_keys_distinct_witness :
  NoDup
    (List.map elementKey
       (elements (renderLayers someNumberToString Collation.localeCompare
                    scenarioProps initialState))).
Proof.
  apply (render_keys_distinct someNumberToString Collation.localeCompare
           scenarioProps initialState).
  simpl. repeat constructor; simpl; intuition discriminate.
Defined.

(** ** Drag interaction: whole traces *)

Lemma selects_app (out1 out2 : list Effect) :
  selects (out1 ++ out2) = (selects out1 ++ selects out2)%list.
Proof. apply flat_map_app. Qed.

Lemma moves_app (out1 out2 : list Effect) :
  moves (out1 ++ out2) = (moves out1 ++ moves out2)%list.
Proof. apply filter_app. Qed.

(** The effects of one event. *)
Lemma step_effects (props : Props.t) (st : State) (ev : Event) :
  snd (step props st ev) =
    match ev with
    | LayerMouseDown e layer =>
        if qualifying ev
        then ([preventDefault; stopPropagation]
                ++ (if Props.onLayerSelect props
                    then [onLayerSelect (ClipLayer.id layer)]
                    else []))%list
        else []
    | WindowMouseMove e =>
        match listeners st with
        | Some l => handleMouseMove props l e
        | None => []
        end
    | WindowMouseUp _ => []
    end.
Proof.
  destruct ev as [e layer|e|e].
  - destruct (qualifying (LayerMouseDown e layer)) eqn:Hq.
    + now rewrite (step_qualifying props st e layer Hq).
    + now rewrite (step_not_qualifying props st e layer Hq).
  - simpl. now destruct (listeners st).
  - simpl. now destruct (listeners st).
Qed.

(** The state after an event does not depend on the props. *)
Lemma step_state_props (props props' : Props.t) (st : State) (ev : Event) :
  fst (step props st ev) = fst (step props' st ev).
Proof.
  destruct ev as [e layer|e|e]; simpl.
  - destruct (hasMouseDown layer); [|reflexivity].
    unfold handleLayerMouseDown.
    destruct (ClipLayer.trackId layer =? "V1"); [reflexivity|].
    destruct (negb (MouseEvent.button e =? 0)%Z); reflexivity.
  - now destruct (listeners st).
  - now destruct (listeners st).
Qed.

(** X11. With [onLayerSelect] passed, the select requests of any trace, from
    any state, are the layer ids of its qualifying pointer-downs, one each
    and in order; moves, releases and pointer-downs that do not qualify
    select nothing. *)
Theorem selects_of_trace (props : Props.t) (evs : list Event) :
  Props.onLayerSelect props = true ->
  forall st, selects (snd (run props st evs)) = qualifyingIds evs.
Proof.
  intros Hselect. induction evs as [|ev evs IH]; intros st; [reflexivity|].
  simpl. pose proof (step_effects props st ev) as Hout.
  destruct (step props st ev) as [st1 out1]. specialize (IH st1).
  destruct (run props st1 evs) as [st2 out2]. simpl in *.
  rewrite selects_app, IH. unfold qualifyingIds at 2. f_equal.
  rewrite Hout. destruct ev as [e layer|e|e].
  - destruct (qualifying (LayerMouseDown e layer)); [|reflexivity].
    now rewrite Hselect.
  - destruct (listeners st) as [l|]; [|reflexivity].
    apply selects_handleMouseMove.
  - reflexivity.
Qed.

(** The scenario's gesture followed by a secondary-button pointer-down on B
    and a pointer-down on A: one select, for B. *)
Lemma selects_of_trace_witness :
  selects
    (snd (run scenarioProps initialState
            [LayerMouseDown pointerDown scenarioB;
             WindowMouseMove pointerMove;
             WindowMouseUp pointerUp;
             LayerMouseDown pointerUp scenarioB;
             LayerMouseDown pointerDown scenarioA])) = ["B"].
Proof.
  exact (selects_of_trace scenarioProps _ eq_refl initialState).
Defined.

(** X12. The session state reached by a trace is the same whatever props are
    passed: the callbacks only observe.  Without [onLayerSelect] no select
    is requested and without [onLayerMove] no move, on any trace. *)
Theorem callbacks_only_observe (props : Props.t) (evs : list Event) :
  forall st,
    (forall props', fst (run props st evs) = fst (run props' st evs))
    /\ (Props.onLayerSelect props = false ->
        selects (snd (run props st evs)) = [])
    /\ (Props.onLayerMove props = false ->
        moves (snd (run props st evs)) = []).
Proof.
  induction evs as [|ev evs IH]; intros st; [now repeat split|].
  simpl. pose proof (step_effects props st ev) as Hout.
  pose proof (fun props' => step_state_props props props' st ev) as Hst.
  destruct (step props st ev) as [st1 out1].
  destruct (IH st1) as (IHst & IHsel & IHmov).
  destruct (run props st1 evs) as [st2 out2]. simpl in *.
  split; [|split].
  - intros props'. specialize (Hst props'). specialize (IHst props').
    destruct (step props' st ev) as [st1' out1']. simpl in Hst. subst st1'.
    destruct (run props' st1 evs) as [st2' out2']. exact IHst.
  - intros Hsel. rewrite selects_app, (IHsel Hsel), Hout.
    destruct ev as [e layer|e|e].
    + destruct (qualifying (LayerMouseDown e layer)); [|reflexivity].
      now rewrite Hsel.
    + destruct (listeners st) as [l|]; [|reflexivity].
      now rewrite selects_handleMouseMove.
    + reflexivity.
  - intros Hmov. rewrite moves_app, (IHmov Hmov), Hout.
    destruct ev as [e layer|e|e].
    + destruct (qualifying (LayerMouseDown e layer)); [|reflexivity].
      now destruct (Props.onLayerSelect props).
    + destruct (listeners st) as [l|]; [|reflexivity].
      unfold handleMouseMove. now rewrite Hmov.
    + reflexivity.
Qed.

Lemma run_cons (props : Props.t) (st : State) (ev : Event)
    (evs : list Event) :
  run props st (ev :: evs) =
    let (st1, out1) := step props st ev in
    let (st2, out2) := run props st1 evs in
    (st2, (out1 ++ out2)%list).
Proof. reflexivity. Qed.

Lemma moves_moveRequests (down : MouseEvent.t) (layer : ClipLayer.t)
    (es : list MouseEvent.t) :
  moves (List.map (moveRequest down layer) es) =
  List.map (moveRequest down layer) es.
Proof.
  induction es as [|e es IH]; simpl; [reflexivity|]. now rewrite IH.
Qed.

(** X13. The last pointer-down wins: whatever came before, an unfinished
    drag of another layer included, the move requests that follow a
    qualifying pointer-down on a layer (with a non-empty id) are all for
    that layer and measured from that pointer-down. *)
Theorem last_pointer_down_wins (props : Props.t) (st : State)
    (before : list Event) (down : MouseEvent.t) (layer : ClipLayer.t)
    (pointerMoves : list MouseEvent.t) :
  Props.onLayerMove props = true ->
  qualifying (LayerMouseDown down layer) = true ->
  ClipLayer.id layer <> "" ->
  moves
    (snd (run props st
            (before ++ LayerMouseDown down layer
               :: List.map WindowMouseMove pointerMoves))) =
  (moves (snd (run props st before))
     ++ List.map (moveRequest down layer) pointerMoves)%list.
Proof.
  intros Hmove Hq Hid. rewrite run_app.
  destruct (run props st before) as [st1 out1]. rewrite run_cons.
  pose proof (step_effects props st1 (LayerMouseDown down layer)) as Hout.
  rewrite Hq in Hout.
  pose proof (step_qualifying_listeners props st1 down layer Hq Hid) as Hl.
  destruct (step props st1 (LayerMouseDown down layer)) as [st2 out2].
  cbn [fst snd] in Hout, Hl.
  rewrite (run_moves props st2 _ pointerMoves Hl). cbn [fst snd].
  rewrite !moves_app. f_equal.
  rewrite Hout.
  assert (Hnone : moves
                    ([preventDefault; stopPropagation]
                       ++ (if Props.onLayerSelect props
                           then [onLayerSelect (ClipLayer.id layer)]
                           else []))%list = [])
    by now destruct (Props.onLayerSelect props).
  rewrite Hnone. simpl.
  unfold handleMouseMove. rewrite Hmove. simpl.
  rewrite <- (moves_moveRequests down layer pointerMoves).
  apply f_equal.
  induction pointerMoves as [|e es IH]; simpl; [reflexivity|].
  now rewrite IH.
Qed.

(** A drag of B is interrupted by a pointer-down on C: the move that
    follows is requested for C, from C's pointer-down. *)
Lemma last_pointer_down_wins_witness :
  moves
    (snd (run scenarioProps initialState
            ([LayerMouseDown pointerDown scenarioB;
              WindowMouseMove pointerMove]
               ++ LayerMouseDown pointerDown2 scenarioC
               :: List.map WindowMouseMove [pointerMove]))) =
  [onLayerMove "B" 20%float 15%float; onLayerMove "C" (-80)%float 65%float].
Proof.
  assert (Hq : qualifying (LayerMouseDown pointerDown2 scenarioC) = true)
    by reflexivity.
  assert (Hid : ClipLayer.id scenarioC <> "") by discriminate.
  exact (last_pointer_down_wins scenarioProps initialState
           [LayerMouseDown pointerDown scenarioB; WindowMouseMove pointerMove]
           pointerDown2 scenarioC [pointerMove] eq_refl Hq Hid).
Defined.

(** ** Drag interaction: returning to the origin *)

Lemma Prim2SF_finite_cases (t : JS.number) :
  PrimFloat.is_finite t = true ->
  (exists s, Prim2SF t = S754_zero s)
  \/ (exists s m e, Prim2SF t = S754_finite s m e).
Proof.
  unfold PrimFloat.is_finite. rewrite negb_true_iff, orb_false_iff.
  intros [Hnan Hinf]. unfold Prim2SF. rewrite Hnan, Hinf.
  destruct (PrimFloat.is_zero t); [eauto|].
  destruct (Z.frexp t) as [r exp].
  destruct (shr_fexp prec emax _ _ _) as [shr e'].
  destruct (shr_m shr); eauto.
Qed.

(** A finite number minus itself is [+0]. *)
Lemma sub_self_finite (t : JS.number) :
  PrimFloat.is_finite t = true -> PrimFloat.sub t t = 0%float.
Proof.
  intros Hfin. apply Prim2SF_inj.
  rewrite FloatAxioms.sub_spec. unfold SF64sub.
  change (Prim2SF 0%float) with (S754_zero false).
  destruct (Prim2SF_finite_cases t Hfin) as [[s ->]|(s & m & e & ->)]; simpl.
  - now destruct s.
  - unfold shl_align. now rewrite Z.min_id, !Z.sub_diag.
Qed.

(** Adding [+0] changes nothing but the sign of [-0]. *)
Lemma add_zero_r (a : JS.number) :
  Prim2SF a <> S754_zero true -> PrimFloat.add a 0%float = a.
Proof.
  intros Hneg. apply Prim2SF_inj.
  rewrite FloatAxioms.add_spec. unfold SF64add.
  change (Prim2SF 0%float) with (S754_zero false).
  destruct (Prim2SF a) as [s|s| |s m e]; simpl; try reflexivity.
  destruct s; [congruence | reflexivity].
Qed.

(** The layer origin recorded at a pointer-down is never [-0] (nor NaN):
    a falsy coordinate was replaced by [+0]. *)
Lemma or_default_zero_not_neg_zero (v : option JS.number) :
  Prim2SF (JS.or_default v 0%float) <> S754_zero true.
Proof.
  assert (Hzero : Prim2SF 0%float <> S754_zero true) by discriminate.
  destruct v as [n|]; simpl; [|exact Hzero].
  unfold JS.or. destruct (JS.truthy n) eqn:E; [|exact Hzero].
  apply truthy_iff in E. destruct E as [E _].
  rewrite FloatAxioms.eqb_spec in E. intros H. rewrite H in E.
  discriminate E.
Qed.

(** X14. A pointer-move back at the finite client position of the
    pointer-down requests exactly the layer origin: a drag that returns to
    where it started puts the layer where it was (at 0 for a coordinate
    that was absent or falsy). *)
Theorem drag_back_to_origin (props : Props.t) (st : State)
    (down e : MouseEvent.t) (layer : ClipLayer.t) :
  Props.onLayerMove props = true ->
  qualifying (LayerMouseDown down layer) = true ->
  ClipLayer.id layer <> "" ->
  PrimFloat.is_finite (MouseEvent.clientX down) = true ->
  PrimFloat.is_finite (MouseEvent.clientY down) = true ->
  MouseEvent.clientX e = MouseEvent.clientX down ->
  MouseEvent.clientY e = MouseEvent.clientY down ->
  snd (step props (fst (step props st (LayerMouseDown down layer)))
         (WindowMouseMove e)) =
    [onLayerMove (ClipLayer.id layer)
       (JS.or_default (transformX layer) 0%float)
       (JS.or_default (transformY layer) 0%float)].
Proof.
  intros Hmove Hq Hid Hx Hy Ex Ey.
  rewrite step_effects.
  rewrite (step_qualifying_listeners props st down layer Hq Hid).
  unfold handleMouseMove. rewrite Hmove. simpl. rewrite Ex, Ey.
  rewrite (sub_self_finite _ Hx), (sub_self_finite _ Hy).
  now rewrite !add_zero_r by apply or_default_zero_not_neg_zero.
Qed.

(** The scenario: the pointer is back where the button went down on B, and
    B is requested at (0, 0), its position before the drag. *)
Lemma drag_back_to_origin_witness :
  snd (step scenarioProps
         (fst (step scenarioProps initialState
                 (LayerMouseDown pointerDown scenarioB)))
         (WindowMouseMove pointerDown)) =
    [onLayerMove "B" 0%float 0%float].
Proof.
  assert (Hq : qualifying (LayerMouseDown pointerDown scenarioB) = true)
    by reflexivity.
  assert (Hid : ClipLayer.id scenarioB <> "") by discriminate.
  exact (drag_back_to_origin scenarioProps initialState pointerDown
           pointerDown scenarioB eq_refl Hq Hid eq_refl eq_refl eq_refl
           eq_refl).
Defined.

(** ** Drag interaction: what the render shows of a session *)

Lemma step_cells_together (props : Props.t) (st : State) (ev : Event) :
  (draggingLayer st = None <-> dragStart st = None) ->
  (draggingLayer (fst (step props st ev)) = None <->
   dragStart (fst (step props st ev)) = None).
Proof.
  intros Hst. pose proof (step_session props st ev) as Hstep.
  destruct (qualifying ev).
  - destruct Hstep as (e & layer & _ & _ & _ & Hd & Hs & _).
    rewrite Hd, Hs. split; discriminate.
  - destruct Hstep as (_ & [[Hd Hs]|[Hd Hs]]); rewrite Hd, Hs;
      [exact Hst | tauto].
Qed.

Lemma run_cells_together (props : Props.t) (evs : list Event) :
  forall st,
    (draggingLayer st = None <-> dragStart st = None) ->
    (draggingLayer (fst (run props st evs)) = None <->
     dragStart (fst (run props st evs)) = None).
Proof.
  induction evs as [|ev evs IH]; intros st Hst; [exact Hst|].
  rewrite run_cons.
  pose proof (step_cells_together props st ev Hst) as Hstep.
  destruct (step props st ev) as [st1 out1].
  specialize (IH st1 Hstep).
  now destruct (run props st1 evs).
Qed.

(** X15. In every state reached from the initial one the two session cells
    are set or cleared together, and, for a non-empty layer set, the
    "Dragging..." badge is rendered exactly while the window listeners are
    registered; for an empty layer set only the placeholder is rendered. *)
Theorem dragging_badge_iff_listening
    (numberToString : JS.number -> string)
    (localeCompare : string -> string -> Z)
    (props : Props.t) (evs : list Event) :
  let st := fst (run props initialState evs) in
  (draggingLayer st = None <-> dragStart st = None)
  /\ match render numberToString localeCompare props st with
     | EmptyState => Props.layers props = []
     | Layers c =>
         Composite.draggingIndicator c =
         match listeners st with
         | Some _ => true
         | None => false
         end
     end.
Proof.
  intros st.
  assert (Hcells : draggingLayer st = None <-> dragStart st = None).
  { apply run_cells_together. simpl. tauto. }
  split; [exact Hcells|].
  unfold render.
  destruct (Nat.eqb_spec (List.length (Props.layers props)) 0) as [E|E].
  { now apply length_zero_iff_nil. }
  cbn [Composite.draggingIndicator].
  unfold st in *.
  rewrite (run_committed props evs initialState eq_refl).
  unfold dragEffect.
  destruct (draggingLayer (fst (run props initialState evs)))
    as [layerId|]; [|reflexivity].
  destruct (dragStart (fst (run props initialState evs))) as [start|].
  - now destruct (JS.truthy_string layerId).
  - destruct Hcells as [_ H]. discriminate (H eq_refl).
Qed.

(** ** Drag interaction: where move requests come from *)

Lemma dragEffect_draggingLayer (st : State) (l : Listeners.t) :
  dragEffect st = Some l ->
  draggingLayer st = Some (Listeners.draggingLayer l).
Proof.
  unfold dragEffect.
  destruct (draggingLayer st) as [layerId|]; [|discriminate].
  destruct (dragStart st) as [start|]; [|discriminate].
  destruct (JS.truthy_string layerId); [|discriminate].
  now intros [= <-].
Qed.

Lemma moves_origin (props : Props.t) (evs : list Event) :
  forall st layerId x y,
    listeners st = dragEffect st ->
    In (onLayerMove layerId x y) (snd (run props st evs)) ->
    draggingLayer st = Some layerId
    \/ exists e layer,
        In (LayerMouseDown e layer) evs
        /\ MouseEvent.button e = 0%Z
        /\ ClipLayer.trackId layer <> "V1"
        /\ ClipLayer.id layer = layerId.
Proof.
  induction evs as [|ev evs IH]; intros st layerId x y Hst; [now simpl|].
  rewrite run_cons.
  pose proof (step_effects props st ev) as Hout.
  pose proof (step_session props st ev) as Hsession.
  pose proof (step_committed props st ev Hst) as Hcommitted.
  destruct (step props st ev) as [st1 out1].
  specialize (IH st1 layerId x y Hcommitted).
  destruct (run props st1 evs) as [st2 out2].
  cbn [fst snd] in *. intros Hin. apply in_app_or in Hin.
  destruct Hin as [Hin|Hin].
  - rewrite Hout in Hin. destruct ev as [e layer|e|e].
    + destruct (qualifying (LayerMouseDown e layer)); [|now simpl in Hin].
      destruct (Props.onLayerSelect props); simpl in Hin;
        intuition discriminate.
    + destruct (listeners st) as [l|] eqn:El; [|now simpl in Hin].
      unfold handleMouseMove in Hin.
      destruct (Props.onLayerMove props); [|now simpl in Hin].
      destruct Hin as [[= <- _ _]|[]]. left.
      apply dragEffect_draggingLayer. congruence.
    + now simpl in Hin.
  - destruct (IH Hin) as [H1|(e & layer & Hin' & Hrest)].
    + destruct (qualifying ev).
      * destruct Hsession as (e & layer & -> & Hb & Ht & Hd & _).
        right. exists e, layer. repeat split; auto; [now left | congruence].
      * destruct Hsession as (_ & [[Hd _]|[Hd _]]); [left|]; congruence.
    + right. exists e, layer. split; [now right | exact Hrest].
Qed.

(** X16. Every move request emitted on a trace from the initial state is
    for the id of a layer off track "V1" that received a primary-button
    pointer-down in that trace: no request ever names a layer that was not
    grabbed, and a base-track layer cannot be grabbed. *)
Theorem move_requests_name_grabbed_layers (props : Props.t)
    (evs : list Event) (layerId : string) (x y : JS.number) :
  In (onLayerMove layerId x y) (snd (run props initialState evs)) ->
  exists e layer,
    In (LayerMouseDown e layer) evs
    /\ MouseEvent.button e = 0%Z
    /\ ClipLayer.trackId layer <> "V1"
    /\ ClipLayer.id layer = layerId.
Proof.
  intros Hin.
  destruct (moves_origin props evs initialState layerId x y eq_refl Hin)
    as [H|H]; [discriminate H | exact H].
Qed.

(** The scenario's gesture: the request for (20, 15) names B, the layer the
    primary button went down on. *)
Lemma move_requests_name_grabbed_layers_witness :
  exists e layer,
    In (LayerMouseDown e layer)
      [LayerMouseDown pointerDown scenarioA;
       LayerMouseDown pointerDown scenarioB;
       WindowMouseMove pointerMove;
       WindowMouseUp pointerUp]
    /\ MouseEvent.button e = 0%Z
    /\ ClipLayer.trackId layer <> "V1"
    /\ ClipLayer.id layer = "B".
Proof.
  apply (move_requests_name_grabbed_layers scenarioProps _ "B" 20%float
           15%float).
  simpl. auto 10.
Defined.
